(** * NomifactoryCEU calculator: overclocking and production planning

    A shallow embedding of the planning core of the calculator
    ([src/core/oc.py], [src/core/models.py], [src/core/plan.py]) and of the
    older single-file calculator ([nomi_calc.py]), with the properties of
    the overclock computation, the plan resolver and the summary
    aggregation stated and proved over it.

    Numbers.  Python [float]s are modelled by exact rationals [Q] and
    Python [int]s by [Z]; [math.ceil] and [math.floor] are [Qceiling] and
    [Qfloor]; [math.floor(math.log(x, 4))] is the integer logarithm
    [floor_log4].  Rounding error, overflow and NaN of binary floating point
    are outside the model.  Equality of rationals is [==] ([Qeq]).

    Dictionaries whose iteration order is observable (a recipe's [inputs]
    and [outputs]) are association lists; dictionaries that are only looked
    up are [gmap]s.  Exceptions are an explicit error result. *)

From Stdlib Require Import ZArith QArith Qround Qminmax Qpower Lia String.
From stdpp Require Import base gmap strings list pretty.

Local Open Scope Z_scope.

(* ===================================================================== *)
(** ** Python numerics *)
(* ===================================================================== *)

(** [max(a, b)] on floats: Python returns [b] only when [b > a]. *)
Definition py_max (a b : Q) : Q := if Qlt_le_dec a b then b else a.

(** [a > b] and [a <= b] on floats, as booleans. *)
Definition Qgtb (a b : Q) : bool := negb (Qle_bool a b).

(** [math.floor(math.log(x, 4))] for [x >= 1]: the largest [n] with
    [4^n <= x].  Powers of four are integers, so the integer part of [x]
    decides, and [floor(log4 m) = floor(log2 m / 2)].  Both callers pass
    an [x >= 1]: [oc.py] takes [max(mv / base_eut, 1.0)], [nomi_calc.py]
    has excluded [base_eut > mv] before. *)
Definition floor_log4 (x : Q) : Z := Z.log2 (Qfloor x) / 2.

(** [round(x)] on a float: nearest integer, ties to the even one. *)
Definition py_round (x : Q) : Z :=
  let f := Qfloor x in
  match Qcompare (x - inject_Z f) (1 # 2) with
  | Lt => f
  | Gt => f + 1
  | Eq => if Z.even f then f else f + 1
  end.

(* ===================================================================== *)
(** ** [src/core/models.py]: tiers *)
(* ===================================================================== *)

(** [Tier = Literal["ULV", ..., "UEV"]]. *)
Inductive Tier : Set :=
  ULV | LV | MV | HV | EV | IV | LuV | ZPM | UV | UHV | UEV.

Global Instance Tier_eq_dec : EqDecision Tier.
Proof. solve_decision. Defined.

(** The string a tier is written as (the literal itself). *)
Definition tier_name (t : Tier) : string :=
  match t with
  | ULV => "ULV" | LV => "LV" | MV => "MV" | HV => "HV" | EV => "EV"
  | IV => "IV" | LuV => "LuV" | ZPM => "ZPM" | UV => "UV" | UHV => "UHV"
  | UEV => "UEV"
  end.

(* ===================================================================== *)
(** ** [src/core/oc.py] *)
(* ===================================================================== *)

Module Oc.

(** [TICK_S = 1.0 / 20.0] *)
Definition TICK_S : Q := 1 # 20.

(** [VOLTAGE_BY_TIER] *)
Definition VOLTAGE_BY_TIER (t : Tier) : Z :=
  match t with
  | ULV => 8
  | LV => 32
  | MV => 128
  | HV => 512
  | EV => 2048
  | IV => 8192
  | LuV => 32768
  | ZPM => 131072
  | UV => 524288
  | UHV => 2097152
  | UEV => 8388608
  end.

(** [VOLTAGE_BY_TIER.get(t)]: every [Tier] is a key of the table. *)
Definition VOLTAGE_BY_TIER_get (t : Tier) : option Z :=
  Some (VOLTAGE_BY_TIER t).

Record OCResult : Set := mkOCResult {
  overclocks : Z;
  ticks : Z;
  seconds : Q;
  eut : Q
}.

(** [compute_overclock(base_time_s, base_eut, tier)] *)
Definition compute_overclock (base_time_s base_eut : Q) (tier : Tier)
  : OCResult :=
  let mv := VOLTAGE_BY_TIER tier in
  if Qle_bool base_eut 0 then
    {| overclocks := 0;
       ticks := Z.max 1 (Qceiling (base_time_s / TICK_S));
       seconds := py_max TICK_S base_time_s;
       eut := 0 |}
  else if Qgtb base_eut (inject_Z mv) then
    (* Cannot run at this tier; treat as no OC but still round to ticks *)
    let ticks := Z.max 1 (Qceiling (base_time_s / TICK_S)) in
    {| overclocks := 0;
       ticks := ticks;
       seconds := inject_Z ticks * TICK_S;
       eut := base_eut |}
  else
    let n := floor_log4 (py_max (inject_Z mv / base_eut) 1) in
    let n := Z.max 0 n in
    let factor : Q := (if Qle_bool base_eut 16 then 2 else 14 # 5)%Q in
    let base_ticks := Z.max 1 (Qceiling (base_time_s / TICK_S)) in
    (* Apply divisor per OC *)
    let ticks_f :=
      (inject_Z base_ticks / (if 0 <? n then factor ^ n else 1))%Q in
    let ticks := Z.max 1 (Qceiling ticks_f) in
    let eut := (base_eut * inject_Z (4 ^ n))%Q in
    {| overclocks := n;
       ticks := ticks;
       seconds := inject_Z ticks * TICK_S;
       eut := eut |}.

End Oc.

(* ===================================================================== *)
(** ** Exceptions and results *)
(* ===================================================================== *)

(** The exceptions the planning code raises.  Python raises them all as
    [ValueError] but for the division; the constructors keep the data the
    message is built from, [error_message] builds the message. *)
Inductive Exception : Type :=
  | CycleDetected (chain : list string)
      (* plan.py: [path + [item]]; nomi_calc.py: [[item]] *)
  | NoOutputs (recipe_id : string)
  | DoesNotOutput (recipe_id item : string)
  | ExceedsVoltage (base_eut : Q) (machine_voltage : Z)
  | ZeroDivisionError
  | KeyError (key : string).

(** Result of a call: a value, a raised exception, or recursion deeper
    than the fuel of the model allows. *)
Inductive outcome (A : Type) : Type :=
  | Ok (a : A)
  | Raise (e : Exception)
  | OutOfFuel.
Arguments Ok {A} a.
Arguments Raise {A} e.
Arguments OutOfFuel {A}.

Definition bind {A B : Type} (m : outcome A) (k : A -> outcome B)
  : outcome B :=
  match m with
  | Ok a => k a
  | Raise e => Raise e
  | OutOfFuel => OutOfFuel
  end.

Notation "'let!' x ':=' m 'in' k" := (bind m (fun x => k))
  (at level 10, x pattern, m at level 100, k at level 200).

(** A [for] loop that appends one result per element and stops at the
    first exception. *)
Fixpoint for_each {A B : Type} (f : A -> outcome B) (l : list A)
  : outcome (list B) :=
  match l with
  | [] => Ok []
  | a :: l' =>
      let! b := f a in
      let! bs := for_each f l' in
      Ok (b :: bs)
  end.

(** [d.get(k)] on a dictionary kept in insertion order. *)
Fixpoint dict_get {V : Type} (d : list (string * V)) (k : string)
  : option V :=
  match d with
  | [] => None
  | (k', v) :: d' => if decide (k' = k) then Some v else dict_get d' k
  end.

(** [' -> '.join(l)] *)
Fixpoint join_arrow (l : list string) : string :=
  match l with
  | [] => ""
  | [s] => s
  | s :: l' => s +:+ " -> " +:+ join_arrow l'
  end.

(* ===================================================================== *)
(** ** [src/core/models.py] *)
(* ===================================================================== *)

Module Recipe.
(** The deprecated [operating_voltage] and the free-text [notes] are
    read by no function of the planner and are left out. *)
Record t : Type := mk {
  id : string;
  machine : string;
  time_s : Q;
  inputs : list (string * Q);
  outputs : list (string * Q);
  base_eut : option Q;
  base_voltage : option Tier;
  gt_recipe : bool
}.
End Recipe.

Module RecipeBook.
Record t : Type := mk {
  recipes : list Recipe.t;
  active_by_output : gmap string string
}.

(** [get_active_recipe]: [if not rid] is true for a missing key and for
    the empty string. *)
Definition get_active_recipe (self : t) (output_item : string)
  : option Recipe.t :=
  match active_by_output self !! output_item with
  | None => None
  | Some rid =>
      if decide (rid = "") then None
      else List.find (fun r => bool_decide (Recipe.id r = rid)) (recipes self)
  end.
(** [get_recipe] *)
Definition get_recipe (self : t) (recipe_id : string) : option Recipe.t :=
  List.find (fun r => bool_decide (Recipe.id r = recipe_id)) (recipes self).

(** [recipes_for_output] *)
Definition recipes_for_output (self : t) (output_item : string)
  : list Recipe.t :=
  List.filter
    (fun r => bool_decide (output_item ∈ map fst (Recipe.outputs r)))
    (recipes self).

(** The inner loop of [upsert_recipe]: remove old output mappings that no
    longer exist.  [old] is the recipe found under the id of [recipe]. *)
Definition drop_stale (old recipe : Recipe.t) (abo : gmap string string)
  : gmap string string :=
  fold_left
    (fun abo out =>
       if bool_decide (abo !! out = Some (Recipe.id old))
          && negb (bool_decide (out ∈ map fst (Recipe.outputs recipe)))
       then delete out abo
       else abo)
    (map fst (Recipe.outputs old)) abo.

(** The [for ... else] loop of [upsert_recipe] up to its [break]: [None]
    when the loop runs to its end, so that the [else] branch appends. *)
Fixpoint replace_first (recipe : Recipe.t) (l : list Recipe.t)
    (abo : gmap string string)
  : option (list Recipe.t * gmap string string) :=
  match l with
  | [] => None
  | r :: l' =>
      if bool_decide (Recipe.id r = Recipe.id recipe) then
        Some (recipe :: l', drop_stale r recipe abo)
      else
        match replace_first recipe l' abo with
        | Some (l'', abo') => Some (r :: l'', abo')
        | None => None
        end
  end.

(** The last loop of [upsert_recipe]:
    [for out in recipe.outputs.keys(): active_by_output[out] = recipe.id] *)
Definition activate (recipe : Recipe.t) (abo : gmap string string)
  : gmap string string :=
  fold_left (fun abo out => <[out := Recipe.id recipe]> abo)
            (map fst (Recipe.outputs recipe)) abo.

(** [upsert_recipe]; the book is updated in place, the model returns the
    updated book. *)
Definition upsert_recipe (self : t) (recipe : Recipe.t) (make_active : bool)
  : t :=
  let '(recipes, abo) :=
    match replace_first recipe (recipes self) (active_by_output self) with
    | Some found => found
    | None => (recipes self ++ [recipe], active_by_output self)
    end in
  {| recipes := recipes;
     active_by_output := if make_active then activate recipe abo else abo |}.

(** [existing = {r.id for r in self.recipes}] *)
Definition existing_ids (self : t) : gset string :=
  list_to_set (map Recipe.id (recipes self)).

(** [f"{base}_{idx}"] *)
Definition candidate (base : string) (idx : N) : string :=
  base +:+ "_" +:+ pretty idx.

(** The loop [while True] of [next_recipe_id], from [idx] on; [turns]
    bounds the number of turns of the model. *)
Fixpoint next_candidate (turns : nat) (base : string)
    (existing : gset string) (idx : N) : outcome string :=
  match turns with
  | O => OutOfFuel
  | S turns' =>
      if bool_decide (candidate base idx ∉ existing) then
        Ok (candidate base idx)
      else next_candidate turns' base existing (idx + 1)%N
  end.

(** [next_recipe_id].  [strip] stands for the method [str.strip] of
    Python.  One turn more than there are recipes is enough for the
    loop. *)
Definition next_recipe_id (strip : string -> string) (self : t)
    (output_item : string) : outcome string :=
  let base := strip output_item in
  let base := if decide (base = "") then "recipe" else base in
  let existing := existing_ids self in
  if bool_decide (base ∉ existing) then Ok base
  else next_candidate (S (length (recipes self))) base existing 2.

End RecipeBook.

Module PlanNode.
#[local] Unset Elimination Schemes.
Inductive t : Type := mk {
  item : string;
  item_display : option string;
  item_rate_per_s : Q;
  recipe_id : string;
  machine : string;
  machine_tier : Tier;
  machines_needed : Z;
  per_machine_ops_per_s : Q;
  effective_time_s : Q;
  effective_eut : Q;
  overclocks : Z;
  inputs : list (string * Q);
  children : list t
}.

(** All node occurrences of a tree, parent first, children left to
    right; a subtree that occurs twice is listed twice. *)
Fixpoint nodes (n : t) : list t :=
  n :: flat_map nodes (children n).
(** The chains of items from the node down to each of its leaves. *)
Fixpoint branches (n : t) : list (list string) :=
  match flat_map branches (children n) with
  | [] => [[item n]]
  | bs => map (cons (item n)) bs
  end.

End PlanNode.

Module Plan.
Record t : Type := mk {
  target_item : string;
  target_item_display : option string;
  target_rate_per_s : Q;
  nodes : PlanNode.t;
  summary : gmap string (Z * Q);   (* key -> (machines, eu_t) *)
  timestamp : Q
}.
End Plan.

(* ===================================================================== *)
(** ** [src/core/plan.py] *)
(* ===================================================================== *)

Module Planner.

Record t : Type := mk {
  book : RecipeBook.t;
  items_map : gmap string string
}.

(** The messages of the two [ValueError]s of [plan.py]; the other
    exceptions are not raised with a message of this module. *)
Definition error_message (e : Exception) : string :=
  match e with
  | CycleDetected chain => "Cycle detected: " +:+ join_arrow chain
  | NoOutputs rid => "Recipe " +:+ rid +:+ " has no outputs"
  | _ => ""
  end.

(** [_primary_output_amount] *)
Definition _primary_output_amount (r : Recipe.t) (item : string)
  : outcome Q :=
  match dict_get (Recipe.outputs r) item with
  | None =>
      (* fallback to first output if present *)
      match Recipe.outputs r with
      | (_, v) :: _ => Ok v
      | [] => Raise (NoOutputs (Recipe.id r))
      end
  | Some amt => Ok amt
  end.

(** [_tier_for_node]; [overrides] may be [None]. *)
Definition _tier_for_node (r : Recipe.t) (default_tier : Tier)
    (overrides : option (gmap string Tier)) (item : string) : Tier :=
  (* Plan precedence: per-item override -> default tier *)
  let tier := default default_tier (default ∅ overrides !! item) in
  (* Ensure at least the recipe's base voltage if provided *)
  match Recipe.base_voltage r with
  | Some base_v =>
      let rv := Oc.VOLTAGE_BY_TIER_get base_v in
      let tv := Oc.VOLTAGE_BY_TIER_get tier in
      match rv with
      | Some rv' =>
          match tv with
          | None => base_v
          | Some tv' => if tv' <? rv' then base_v else tier
          end
      | None => tier
      end
  | None => tier
  end.

(** The node returned for an item without active recipe. *)
Definition raw_node (self : t) (item : string) (rate_per_s : Q)
    (default_tier : Tier) : PlanNode.t :=
  {| PlanNode.item := item;
     PlanNode.item_display := items_map self !! item;
     PlanNode.item_rate_per_s := rate_per_s;
     PlanNode.recipe_id := "<raw>";
     PlanNode.machine := "RAW";
     PlanNode.machine_tier := default_tier; (* raw nodes show default tier *)
     PlanNode.machines_needed := 0;
     PlanNode.per_machine_ops_per_s := 0;
     PlanNode.effective_time_s := 0;
     PlanNode.effective_eut := 0;
     PlanNode.overclocks := 0;
     PlanNode.inputs := [];
     PlanNode.children := [] |}.

(** Duration, power and overclock count of a recipe at a tier: the
    statement [if r.base_eut is not None and r.gt_recipe: ... else: ...]
    of [_solve]. *)
Definition effective (r : Recipe.t) (tier : Tier) : Q * Q * Z :=
  match Recipe.base_eut r with
  | Some base_eut =>
      if Recipe.gt_recipe r then
        let oc := Oc.compute_overclock (Recipe.time_s r) base_eut tier in
        (Oc.seconds oc, Oc.eut oc, Oc.overclocks oc)
      else (Recipe.time_s r, 0%Q, 0)
  | None =>
      (* No OC when base_eut missing *)
      (Recipe.time_s r, 0%Q, 0)
  end.

(** [_solve]; [fuel] bounds the depth of the recursion. *)
Fixpoint _solve (fuel : nat) (self : t) (item : string) (rate_per_s : Q)
    (default_tier : Tier) (overrides : option (gmap string Tier))
    (path : list string) {struct fuel} : outcome PlanNode.t :=
  match fuel with
  | O => OutOfFuel
  | S fuel' =>
    if bool_decide (item ∈ path) then Raise (CycleDetected (path ++ [item]))
    else
    match RecipeBook.get_active_recipe (book self) item with
    | None => Ok (raw_node self item rate_per_s default_tier)
    | Some r =>
      let tier := _tier_for_node r default_tier overrides item in
      let! out_amt := _primary_output_amount r item in
      (* overclocking *)
      let '(eff_time_s, eff_eut, overclocks) := effective r tier in
      let ops_per_machine := (1 / py_max eff_time_s (1 # 1000000000000))%Q in
      if Qeq_bool out_amt 0 then Raise ZeroDivisionError else
      let required_ops := (rate_per_s / out_amt)%Q in
      let machines := Qceiling (required_ops / ops_per_machine) in
      (* Build children *)
      let inputs_rates :=
        map (fun '(in_item, in_amt) => (in_item, (required_ops * in_amt)%Q))
            (Recipe.inputs r) in
      let new_path := path ++ [item] in
      let! children :=
        for_each (fun '(in_item, in_rate) =>
                    _solve fuel' self in_item in_rate default_tier overrides
                           new_path)
                 inputs_rates in
      Ok {| PlanNode.item := item;
            PlanNode.item_display := items_map self !! item;
            PlanNode.item_rate_per_s := rate_per_s;
            PlanNode.recipe_id := Recipe.id r;
            PlanNode.machine := Recipe.machine r;
            PlanNode.machine_tier := tier;
            PlanNode.machines_needed := machines;
            PlanNode.per_machine_ops_per_s := ops_per_machine;
            PlanNode.effective_time_s := eff_time_s;
            PlanNode.effective_eut := eff_eut;
            PlanNode.overclocks := overclocks;
            PlanNode.inputs := inputs_rates;
            PlanNode.children := children |}
    end
  end.

(** Recursion depth that cannot be exceeded: a path holds distinct items
    that all have an active recipe. *)
Definition depth_bound (self : t) : nat :=
  S (size (RecipeBook.active_by_output (book self))).

(** [f"{n.machine} [{n.machine_tier}]"] *)
Definition summary_key (n : PlanNode.t) : string :=
  PlanNode.machine n +:+ " [" +:+ tier_name (PlanNode.machine_tier n) +:+ "]".

(** The test of [walk]. *)
Definition counted (n : PlanNode.t) : bool :=
  negb (bool_decide (PlanNode.machine n = "RAW"))
  && (0 <? PlanNode.machines_needed n).

(** [agg[key]["machines"] += m; agg[key]["eu_t"] += e] on the
    [defaultdict] whose fresh entries are [(0.0, 0.0)]. *)
Definition accumulate (key : string) (m e : Q) (agg : gmap string (Q * Q))
  : gmap string (Q * Q) :=
  let '(m0, e0) := default (0%Q, 0%Q) (agg !! key) in
  <[key := ((m0 + m)%Q, (e0 + e)%Q)]> agg.

(** The statement [walk] runs on a node before it walks the children. *)
Definition visit (n : PlanNode.t) (agg : gmap string (Q * Q))
  : gmap string (Q * Q) :=
  if counted n then
    accumulate (summary_key n)
      (inject_Z (PlanNode.machines_needed n))
      (inject_Z (PlanNode.machines_needed n) * PlanNode.effective_eut n)%Q
      agg
  else agg.

(** [walk] of [_summary], with the dictionary [agg] threaded through. *)
Fixpoint walk (n : PlanNode.t) (agg : gmap string (Q * Q))
  : gmap string (Q * Q) :=
  let agg := visit n agg in
  fold_left (fun a c => walk c a) (PlanNode.children n) agg.

(** [_summary] *)
Definition _summary (root : PlanNode.t) : gmap string (Z * Q) :=
  (* Round machines to int for readability *)
  (fun v : Q * Q => (Qceiling (fst v), snd v)) <$> walk root ∅.

(** [build_plan]; [now] is the value of [time.time()]. *)
Definition build_plan (self : t) (now : Q) (target_item : string)
    (target_rate_per_s : Q) (default_tier : Tier)
    (overrides : option (gmap string Tier)) : outcome Plan.t :=
  let! root := _solve (depth_bound self) self target_item target_rate_per_s
                      default_tier overrides [] in
  Ok {| Plan.target_item := target_item;
        Plan.target_item_display := items_map self !! target_item;
        Plan.target_rate_per_s := target_rate_per_s;
        Plan.nodes := root;
        Plan.summary := _summary root;
        Plan.timestamp := now |}.

End Planner.

(* ===================================================================== *)
(** ** [nomi_calc.py]: the single-file calculator *)
(* ===================================================================== *)

Module NomiCalc.

(** [TICK_S = 1.0 / 20.0] *)
Definition TICK_S : Q := 1 # 20.

(** [VOLTAGE_BY_TIER]: the same table as in [oc.py]; the command line
    admits only its keys as [--tier]. *)
Definition VOLTAGE_BY_TIER (t : Tier) : Z :=
  match t with
  | ULV => 8
  | LV => 32
  | MV => 128
  | HV => 512
  | EV => 2048
  | IV => 8192
  | LuV => 32768
  | ZPM => 131072
  | UV => 524288
  | UHV => 2097152
  | UEV => 8388608
  end.


Module Recipe.
Record t : Type := mk {
  id : string;
  machine : string;
  time_s : Q;
  inputs : list (string * Q);
  outputs : list (string * Q);
  base_eut : option Q
}.
End Recipe.

Module RecipeBook.
Record t : Type := mk {
  recipes : gmap string Recipe.t;          (* by recipe id *)
  active_by_output : gmap string string    (* output item -> recipe id *)
}.

(** [get_active_for] *)
Definition get_active_for (self : t) (item : string) : option Recipe.t :=
  match active_by_output self !! item with
  | None => None
  | Some rid => if decide (rid = "") then None else recipes self !! rid
  end.
(** What a method that updates the book in place leaves behind: the
    updated book, or the exception it raises with its message. *)
Inductive update : Type :=
  | Updated (rb : t)
  | RaiseValueError (message : string)
  | RaiseKeyError (message : string).

(** [for out in r.outputs.keys(): self.active_by_output[out] = r.id] *)
Definition activate (r : Recipe.t) (abo : gmap string string)
  : gmap string string :=
  fold_left (fun abo out => <[out := Recipe.id r]> abo)
            (map fst (Recipe.outputs r)) abo.

(** [add] *)
Definition add (self : t) (r : Recipe.t) (make_active : bool) : update :=
  if bool_decide (is_Some (recipes self !! Recipe.id r)) then
    RaiseValueError ("Recipe id already exists: " +:+ Recipe.id r)
  else
    Updated
      {| recipes := <[Recipe.id r := r]> (recipes self);
         active_by_output :=
           if make_active then activate r (active_by_output self)
           else active_by_output self |}.

(** [set_active] *)
Definition set_active (self : t) (output_item recipe_id : string) : update :=
  if bool_decide (is_Some (recipes self !! recipe_id)) then
    Updated
      {| recipes := recipes self;
         active_by_output := <[output_item := recipe_id]> (active_by_output self) |}
  else RaiseKeyError ("Unknown recipe id: " +:+ recipe_id).

End RecipeBook.

Record OverclockResult : Type := mkOverclockResult {
  ticks : Z;
  seconds : Q;
  eut : Q;
  overclocks : Z
}.

Module OverclockingRules.

Record t : Set := mk {
  tier : Tier;
  machine_voltage : Z
}.

(** [__init__]: every [Tier] is in the table, the unknown-tier test
    always passes. *)
Definition init (tier : Tier) : t :=
  {| tier := tier; machine_voltage := VOLTAGE_BY_TIER tier |}.

(** Tick rounding rules *)
Definition round_ticks (base_eut ticks_f : Q) : Z :=
  if Qle_bool base_eut 16 then Z.max 1 (Qfloor ticks_f)
  else Z.max 1 (Qceiling ticks_f).

(** The loop [while new_ticks < 1 and n > 0]; each turn decrements
    [n], so [n] turns are enough. *)
Fixpoint step_back (turns : nat) (base_ticks : Z) (base_eut factor : Q)
    (n new_ticks : Z) : Z * Z :=
  match turns with
  | O => (n, new_ticks)
  | S turns' =>
      if (new_ticks <? 1) && (0 <? n) then
        let n := n - 1 in
        let ticks_f :=
          (inject_Z base_ticks / (if 0 <? n then factor ^ n else 1))%Q in
        let new_ticks := round_ticks base_eut ticks_f in
        step_back turns' base_ticks base_eut factor n new_ticks
      else (n, new_ticks)
  end.

(** [apply] *)
Definition apply (self : t) (base_ticks : Z) (base_eut : option Q)
  : outcome OverclockResult :=
  match base_eut with
  | None =>
      (* No overclocking; just return base *)
      Ok {| ticks := Z.max base_ticks 1;
            seconds := inject_Z (Z.max base_ticks 1) * TICK_S;
            eut := 0;
            overclocks := 0 |}
  | Some base_eut =>
      (* Basic sanity *)
      if Qgtb base_eut (inject_Z (machine_voltage self)) then
        Raise (ExceedsVoltage base_eut (machine_voltage self))
      else
      (* Maximum number of overclocks such that
         base_eut * 4^n <= machine_voltage *)
      let n :=
        if Qgtb base_eut 0 then
          floor_log4 (inject_Z (machine_voltage self) / base_eut)
        else 0 in
      let n := Z.max 0 n in
      (* Duration factor *)
      let factor : Q := (if Qle_bool base_eut 16 then 2 else 14 # 5)%Q in
      let ticks_f :=
        (inject_Z base_ticks / (if 0 <? n then factor ^ n else 1))%Q in
      let new_ticks := round_ticks base_eut ticks_f in
      (* Ensure we don't overclock past 1 tick *)
      let '(n, new_ticks) :=
        step_back (Z.to_nat n) base_ticks base_eut factor n new_ticks in
      let eut_eff := (base_eut * inject_Z (4 ^ n))%Q in
      Ok {| ticks := new_ticks;
            seconds := inject_Z new_ticks * TICK_S;
            eut := eut_eff;
            overclocks := n |}
  end.

End OverclockingRules.

Module PlanNode.
#[local] Unset Elimination Schemes.
Inductive t : Type := mk {
  item : string;
  item_rate_per_s : Q;
  recipe_id : string;
  machine : string;
  machine_tier : Tier;
  machines_needed : Z;
  per_machine_ops_per_s : Q;
  effective_time_s : Q;
  effective_eut : Q;
  overclocks : Z;
  inputs : list (string * Q);
  children : list t
}.
(** All node occurrences of a tree, parent first. *)
Fixpoint nodes (n : t) : list t :=
  n :: flat_map nodes (children n).

End PlanNode.

Module Planner.

Record t : Type := mk { rb : RecipeBook.t }.

(** The messages of the cycle error and of the output error of
    [nomi_calc.py]. *)
Definition error_message (e : Exception) : string :=
  match e with
  | CycleDetected chain =>
      "Cycle detected while resolving " +:+ join_arrow chain
  | DoesNotOutput rid item =>
      "Recipe " +:+ rid +:+ " does not output " +:+ item
  | _ => ""
  end.

(** [_choose_output_amount]: [not amt] is true for a missing key and
    for the quantity zero. *)
Definition _choose_output_amount (r : Recipe.t) (item : string)
  : outcome Q :=
  match dict_get (Recipe.outputs r) item with
  | None => Raise (DoesNotOutput (Recipe.id r) item)
  | Some amt =>
      if Qeq_bool amt 0 then Raise (DoesNotOutput (Recipe.id r) item)
      else Ok amt
  end.

(** The loop over [inputs_rates] of [_solve_node], with the shared
    set [visited] threaded through the calls. *)
Fixpoint solve_children
    (solve : string -> Q -> gset string
             -> outcome (PlanNode.t * gset string))
    (inputs_rates : list (string * Q)) (visited : gset string)
  : outcome (list PlanNode.t * gset string) :=
  match inputs_rates with
  | [] => Ok ([], visited)
  | (in_item, in_rate) :: rest =>
      let! (child, visited) := solve in_item in_rate visited in
      let! (children, visited) := solve_children solve rest visited in
      Ok (child :: children, visited)
  end.

(** [_solve_node].  [visited] is one mutable set shared by all calls:
    the function takes it and returns it as the caller sees it
    afterwards.  [fuel] bounds the depth of the recursion. *)
Fixpoint _solve_node (fuel : nat) (self : t) (item : string)
    (rate_per_s : Q) (tier : Tier) (visited : gset string)
    {struct fuel} : outcome (PlanNode.t * gset string) :=
  match fuel with
  | O => OutOfFuel
  | S fuel' =>
    if bool_decide (item ∈ visited) then Raise (CycleDetected [item])
    else
    let visited := {[item]} ∪ visited in
    match RecipeBook.get_active_for (rb self) item with
    | None =>
        (* No recipe; treat as raw input *)
        Ok ({| PlanNode.item := item;
               PlanNode.item_rate_per_s := rate_per_s;
               PlanNode.recipe_id := "<none>";
               PlanNode.machine := "<raw input>";
               PlanNode.machine_tier := tier;
               PlanNode.machines_needed := 0;
               PlanNode.per_machine_ops_per_s := 0;
               PlanNode.effective_time_s := 0;
               PlanNode.effective_eut := 0;
               PlanNode.overclocks := 0;
               PlanNode.inputs := [];
               PlanNode.children := [] |}, visited)
    | Some r =>
      let! out_per_op := _choose_output_amount r item in
      let base_ticks := Z.max 1 (py_round (Recipe.time_s r / TICK_S)) in
      let! (eff_time_s, eff_eut, overclocks) :=
        match Recipe.base_eut r with
        | Some _ =>
            let! oc := OverclockingRules.apply (OverclockingRules.init tier)
                         base_ticks (Recipe.base_eut r) in
            Ok (seconds oc, eut oc, overclocks oc)
        | None => Ok ((inject_Z (Z.max base_ticks 1) * TICK_S)%Q, 0%Q, 0)
        end in
      if Qeq_bool eff_time_s 0 then Raise ZeroDivisionError else
      let ops_per_machine_per_s := (1 / eff_time_s)%Q in
      let required_ops_per_s := (rate_per_s / out_per_op)%Q in
      let machines :=
        Qceiling (required_ops_per_s / ops_per_machine_per_s) in
      (* Compute input rates and recursively build children *)
      let inputs_rates :=
        map (fun '(in_item, in_amt) =>
               (in_item, (required_ops_per_s * in_amt)%Q))
            (Recipe.inputs r) in
      let! (children, visited) :=
        solve_children (fun in_item in_rate visited =>
                          _solve_node fuel' self in_item in_rate tier
                                      visited)
                       inputs_rates visited in
      if bool_decide (item ∈ visited) then
        let visited := visited ∖ {[item]} in
        Ok ({| PlanNode.item := item;
               PlanNode.item_rate_per_s := rate_per_s;
               PlanNode.recipe_id := Recipe.id r;
               PlanNode.machine := Recipe.machine r;
               PlanNode.machine_tier := tier;
               PlanNode.machines_needed := machines;
               PlanNode.per_machine_ops_per_s := ops_per_machine_per_s;
               PlanNode.effective_time_s := eff_time_s;
               PlanNode.effective_eut := eff_eut;
               PlanNode.overclocks := overclocks;
               PlanNode.inputs := inputs_rates;
               PlanNode.children := children |}, visited)
      else Raise (KeyError item)
    end
  end.

End Planner.

End NomiCalc.

(* ===================================================================== *)
(** ** The rules as the specification words them *)
(* ===================================================================== *)

Module Spec.


(** Section 4.2: start from the override if present, else the default
    tier; if the recipe declares a minimum tier, raise the tier to that
    minimum when its capacity is below the capacity of the minimum. *)
Definition node_tier (override : option Tier) (default_tier : Tier)
    (minimum : option Tier) : Tier :=
  let start := default default_tier override in
  match minimum with
  | Some b =>
      if Oc.VOLTAGE_BY_TIER start <? Oc.VOLTAGE_BY_TIER b then b else start
  | None => start
  end.

(** Section 3: [machines_needed] is ceil(required operations/second
    / per-machine operations/second), the former being
    [rate / output quantity], the latter [1 / effective duration]. *)
Definition machines_needed (rate output_quantity effective_duration : Q)
  : Z :=
  Qceiling ((rate / output_quantity) / (1 / effective_duration)).



End Spec.

(* ===================================================================== *)
(** ** Resolved nodes *)
(* ===================================================================== *)

(** The input rates computed by one step of [_solve]. *)
Definition input_rates (r : Recipe.t) (rate_per_s out_amt : Q)
  : list (string * Q) :=
  map (fun '(in_item, in_amt) => (in_item, (rate_per_s / out_amt * in_amt)%Q))
      (Recipe.inputs r).

(** The node one step of [_solve] assembles for an item with recipe [r],
    once the output amount and the children are known. *)
Definition built_node (self : Planner.t) (item : string) (rate_per_s : Q)
    (default_tier : Tier) (overrides : option (gmap string Tier))
    (r : Recipe.t) (out_amt : Q) (children : list PlanNode.t) : PlanNode.t :=
  let tier := Planner._tier_for_node r default_tier overrides item in
  let eff := Planner.effective r tier in
  let ops := (1 / py_max (fst (fst eff)) (1 # 1000000000000))%Q in
  {| PlanNode.item := item;
     PlanNode.item_display := Planner.items_map self !! item;
     PlanNode.item_rate_per_s := rate_per_s;
     PlanNode.recipe_id := Recipe.id r;
     PlanNode.machine := Recipe.machine r;
     PlanNode.machine_tier := tier;
     PlanNode.machines_needed := Qceiling (rate_per_s / out_amt / ops);
     PlanNode.per_machine_ops_per_s := ops;
     PlanNode.effective_time_s := fst (fst eff);
     PlanNode.effective_eut := snd (fst eff);
     PlanNode.overclocks := snd eff;
     PlanNode.inputs := input_rates r rate_per_s out_amt;
     PlanNode.children := children |}.

(** What [_solve] stores in the node of an item, read off the catalog: the
    raw node if the item has no active recipe, otherwise the tier, the
    duration and power at that tier, the throughput, the machine count and
    the input rates, with one child per input. *)
Definition resolved (self : Planner.t) (default_tier : Tier)
    (overrides : option (gmap string Tier)) (nd : PlanNode.t) : Prop :=
  match RecipeBook.get_active_recipe (Planner.book self) (PlanNode.item nd) with
  | None =>
      nd = Planner.raw_node self (PlanNode.item nd)
             (PlanNode.item_rate_per_s nd) default_tier
  | Some r =>
      exists out_amt : Q,
        Planner._primary_output_amount r (PlanNode.item nd) = Ok out_amt
        /\ ~ (out_amt == 0)%Q
        /\ PlanNode.machine_tier nd
           = Planner._tier_for_node r default_tier overrides (PlanNode.item nd)
        /\ (PlanNode.effective_time_s nd, PlanNode.effective_eut nd,
            PlanNode.overclocks nd)
           = Planner.effective r (PlanNode.machine_tier nd)
        /\ PlanNode.per_machine_ops_per_s nd
           = (1 / py_max (PlanNode.effective_time_s nd) (1 # 1000000000000))%Q
        /\ PlanNode.machines_needed nd
           = Qceiling ((PlanNode.item_rate_per_s nd / out_amt)
                       / PlanNode.per_machine_ops_per_s nd)
        /\ PlanNode.recipe_id nd = Recipe.id r
        /\ PlanNode.machine nd = Recipe.machine r
        /\ PlanNode.inputs nd
           = map (fun '(in_item, in_amt) =>
                    (in_item,
                     (PlanNode.item_rate_per_s nd / out_amt * in_amt)%Q))
                 (Recipe.inputs r)
        /\ Forall2 (fun c (ir : string * Q) =>
                      PlanNode.item c = fst ir
                      /\ PlanNode.item_rate_per_s c = snd ir)
                   (PlanNode.children nd) (PlanNode.inputs nd)
  end.

(** [a] lists [b] among its inputs in its active recipe. *)
Definition consumes (self : Planner.t) (a b : string) : Prop :=
  exists r, RecipeBook.get_active_recipe (Planner.book self) a = Some r
            /\ b ∈ map fst (Recipe.inputs r).

(** A chain of items, each consumed by the one before. *)
Fixpoint chain (self : Planner.t) (l : list string) : Prop :=
  match l with
  | a :: (b :: _) as l' => consumes self a b /\ chain self l'
  | _ => True
  end.

(** Every active recipe yields a usable output amount for its item, so
    that no error other than a cycle can stop the resolution. *)
Definition outputs_ok (self : Planner.t) : Prop :=
  forall item r,
    RecipeBook.get_active_recipe (Planner.book self) item = Some r ->
    exists amt : Q,
      Planner._primary_output_amount r item = Ok amt /\ ~ (amt == 0)%Q.

(** No item that [item] needs, directly or transitively, consumes
    itself. *)
Definition acyclic_below (self : Planner.t) (item : string) : Prop :=
  forall w, rtc (consumes self) item w -> ~ tc (consumes self) w w.

(** An offending path: it runs from [item] along [consumes] and ends with
    an item that occurs earlier in it. *)
Definition offending_path (self : Planner.t) (item : string)
    (c : list string) : Prop :=
  exists l x, c = l ++ [x] /\ head c = Some item /\ chain self c /\ x ∈ l.

(** Every recipe of the book of [nomi_calc.py] is stored under its own
    id. *)
Definition keyed_by_id (rb : NomiCalc.RecipeBook.t) : Prop :=
  forall k r, NomiCalc.RecipeBook.recipes rb !! k = Some r ->
              NomiCalc.Recipe.id r = k.

(** The items without active recipe among the nodes of a tree of
    [nomi_calc.py], one per occurrence. *)
Definition raw_items (self : NomiCalc.Planner.t) (nd : NomiCalc.PlanNode.t)
  : list string :=
  filter
    (fun it => ~ is_Some (NomiCalc.RecipeBook.get_active_for
                            (NomiCalc.Planner.rb self) it))
    (map NomiCalc.PlanNode.item (NomiCalc.PlanNode.nodes nd)).

(* ===================================================================== *)
(** ** Example catalogs *)
(* ===================================================================== *)

(** A recipe of the plate press that draws 64 EU/t, planned on LV
    (capacity 32). *)
Definition press_recipe : Recipe.t :=
  {| Recipe.id := "plate";
     Recipe.machine := "press";
     Recipe.time_s := 1;
     Recipe.inputs := [];
     Recipe.outputs := [("plate", 1%Q)];
     Recipe.base_eut := Some 64%Q;
     Recipe.base_voltage := None;
     Recipe.gt_recipe := true |}.

Definition press_planner : Planner.t :=
  {| Planner.book :=
       {| RecipeBook.recipes := [press_recipe];
          RecipeBook.active_by_output := {["plate" := "plate"]} |};
     Planner.items_map := ∅ |}.

(** A raw input [ore] and a smelter recipe without power draw that turns
    it into [ingot] in [time_s] seconds. *)
Definition smelt_recipe (time_s : Q) : Recipe.t :=
  {| Recipe.id := "ingot";
     Recipe.machine := "smelter";
     Recipe.time_s := time_s;
     Recipe.inputs := [("ore", 1%Q)];
     Recipe.outputs := [("ingot", 1%Q)];
     Recipe.base_eut := None;
     Recipe.base_voltage := None;
     Recipe.gt_recipe := true |}.

Definition smelt_planner (time_s : Q) : Planner.t :=
  {| Planner.book :=
       {| RecipeBook.recipes := [smelt_recipe time_s];
          RecipeBook.active_by_output := {["ingot" := "ingot"]} |};
     Planner.items_map := ∅ |}.

(** The smelter recipe at 5 s on a catalog next to a centrifuge recipe that
    declares IV as its minimum voltage; [ore] is a raw input, and the tier
    overrides name [ore] and [ingot]. *)
Definition dust_recipe : Recipe.t :=
  {| Recipe.id := "dust";
     Recipe.machine := "centrifuge";
     Recipe.time_s := 2;
     Recipe.inputs := [("ingot", 2%Q); ("ore", 1%Q)];
     Recipe.outputs := [("dust", 1%Q)];
     Recipe.base_eut := Some 30%Q;
     Recipe.base_voltage := Some IV;
     Recipe.gt_recipe := true |}.

Definition dust_planner : Planner.t :=
  {| Planner.book :=
       {| RecipeBook.recipes := [smelt_recipe 5; dust_recipe];
          RecipeBook.active_by_output :=
            {["ingot" := "ingot"; "dust" := "dust"]} |};
     Planner.items_map := ∅ |}.

Definition dust_overrides : option (gmap string Tier) :=
  Some {["ore" := UV; "ingot" := MV; "dust" := HV]}.

Definition ore_node (rate : Q) : PlanNode.t :=
  Planner.raw_node dust_planner "ore" rate LV.

Definition ingot_node (rate : Q) : PlanNode.t :=
  built_node dust_planner "ingot" rate LV dust_overrides (smelt_recipe 5) 1
    [ore_node (rate / 1 * 1)].

Definition dust_node : PlanNode.t :=
  built_node dust_planner "dust" 3 LV dust_overrides dust_recipe 1
    [ingot_node (3 / 1 * 2); ore_node (3 / 1 * 1)].

(** An alloy recipe that is active for [alloy_ingot] although it lists
    only [slag] among its outputs. *)
Definition alloy_recipe : Recipe.t :=
  {| Recipe.id := "alloy";
     Recipe.machine := "alloy smelter";
     Recipe.time_s := 1;
     Recipe.inputs := [];
     Recipe.outputs := [("slag", 4%Q)];
     Recipe.base_eut := None;
     Recipe.base_voltage := None;
     Recipe.gt_recipe := true |}.

Definition alloy_planner : Planner.t :=
  {| Planner.book :=
       {| RecipeBook.recipes := [alloy_recipe];
          RecipeBook.active_by_output := {["alloy_ingot" := "alloy"]} |};
     Planner.items_map := ∅ |}.

(** A gear is made of a plate and a rod; each is made of an ingot, which
    is smelted from the raw input [ore].  The catalog is acyclic, and
    [ingot] and [ore] occur in the two sibling branches of [gear]. *)
Definition simple_recipe (id machine : string) (inputs : list (string * Q))
  : Recipe.t :=
  {| Recipe.id := id;
     Recipe.machine := machine;
     Recipe.time_s := 1;
     Recipe.inputs := inputs;
     Recipe.outputs := [(id, 1%Q)];
     Recipe.base_eut := None;
     Recipe.base_voltage := None;
     Recipe.gt_recipe := true |}.

Definition gear_planner : Planner.t :=
  {| Planner.book :=
       {| RecipeBook.recipes :=
            [simple_recipe "gear" "assembler" [("plate", 1%Q); ("rod", 1%Q)];
             simple_recipe "plate" "press" [("ingot", 1%Q)];
             simple_recipe "rod" "lathe" [("ingot", 1%Q)];
             simple_recipe "ingot" "smelter" [("ore", 1%Q)]];
          RecipeBook.active_by_output :=
            {["gear" := "gear"; "plate" := "plate"; "rod" := "rod";
              "ingot" := "ingot"]} |};
     Planner.items_map := ∅ |}.

(** The same catalog with a rod recipe that consumes a gear: [gear]
    consumes itself through [rod]. *)
Definition loop_planner : Planner.t :=
  {| Planner.book :=
       {| RecipeBook.recipes :=
            [simple_recipe "gear" "assembler" [("plate", 1%Q); ("rod", 1%Q)];
             simple_recipe "plate" "press" [("ingot", 1%Q)];
             simple_recipe "rod" "lathe" [("gear", 1%Q)];
             simple_recipe "ingot" "smelter" [("ore", 1%Q)]];
          RecipeBook.active_by_output :=
            {["gear" := "gear"; "plate" := "plate"; "rod" := "rod";
              "ingot" := "ingot"]} |};
     Planner.items_map := ∅ |}.

(** The gear catalog for the single-file calculator. *)
Definition old_recipe (id machine : string) (inputs : list (string * Q))
  : NomiCalc.Recipe.t :=
  {| NomiCalc.Recipe.id := id;
     NomiCalc.Recipe.machine := machine;
     NomiCalc.Recipe.time_s := 1;
     NomiCalc.Recipe.inputs := inputs;
     NomiCalc.Recipe.outputs := [(id, 1%Q)];
     NomiCalc.Recipe.base_eut := None |}.

Definition old_gear_planner : NomiCalc.Planner.t :=
  {| NomiCalc.Planner.rb :=
       {| NomiCalc.RecipeBook.recipes :=
            {["gear" := old_recipe "gear" "assembler"
                          [("plate", 1%Q); ("rod", 1%Q)];
              "plate" := old_recipe "plate" "press" [("ingot", 1%Q)];
              "rod" := old_recipe "rod" "lathe" [("ingot", 1%Q)];
              "ingot" := old_recipe "ingot" "smelter" [("ore", 1%Q)]]};
          NomiCalc.RecipeBook.active_by_output :=
            {["gear" := "gear"; "plate" := "plate"; "rod" := "rod";
              "ingot" := "ingot"]} |} |}.

(** The tree of one gear per second on LV. *)
Definition gear_tree : PlanNode.t := Eval vm_compute in
  match Planner._solve (Planner.depth_bound gear_planner) gear_planner
          "gear" 1 LV None [] with
  | Ok root => root
  | Raise _ | OutOfFuel => Planner.raw_node gear_planner "gear" 1 LV
  end.


(** A new version of the rod recipe of the gear catalog, which yields
    bolts next to rods, and a version that yields bolts only. *)
Definition rod_and_bolt : Recipe.t :=
  {| Recipe.id := "rod";
     Recipe.machine := "lathe";
     Recipe.time_s := 1;
     Recipe.inputs := [("ingot", 1%Q)];
     Recipe.outputs := [("rod", 1%Q); ("bolt", 2%Q)];
     Recipe.base_eut := None;
     Recipe.base_voltage := None;
     Recipe.gt_recipe := true |}.

Definition bolt_only : Recipe.t :=
  {| Recipe.id := "rod";
     Recipe.machine := "lathe";
     Recipe.time_s := 1;
     Recipe.inputs := [("ingot", 1%Q)];
     Recipe.outputs := [("bolt", 2%Q)];
     Recipe.base_eut := None;
     Recipe.base_voltage := None;
     Recipe.gt_recipe := true |}.

Definition gear_book : RecipeBook.t := Planner.book gear_planner.

(** The tree of one plate per second on LV, by [nomi_calc.py]. *)
Definition old_plate_tree : NomiCalc.PlanNode.t := Eval vm_compute in
  match NomiCalc.Planner._solve_node 3 old_gear_planner "plate" 1 LV ∅ with
  | Ok (nd, _) => nd
  | Raise _ | OutOfFuel =>
      {| NomiCalc.PlanNode.item := "plate";
         NomiCalc.PlanNode.item_rate_per_s := 1;
         NomiCalc.PlanNode.recipe_id := "<none>";
         NomiCalc.PlanNode.machine := "<raw input>";
         NomiCalc.PlanNode.machine_tier := LV;
         NomiCalc.PlanNode.machines_needed := 0;
         NomiCalc.PlanNode.per_machine_ops_per_s := 0;
         NomiCalc.PlanNode.effective_time_s := 0;
         NomiCalc.PlanNode.effective_eut := 0;
         NomiCalc.PlanNode.overclocks := 0;
         NomiCalc.PlanNode.inputs := [];
         NomiCalc.PlanNode.children := [] |}
  end.

(* ===================================================================== *)
(** ** Facts about the numerics *)
(* ===================================================================== *)

Lemma py_max_spec (a b : Q) :
  (a <= py_max a b /\ b <= py_max a b /\ (py_max a b == a \/ py_max a b == b))%Q.
Proof.
  unfold py_max. destruct (Qlt_le_dec a b) as [H|H].
  - repeat split; [apply Qlt_le_weak, H | apply Qle_refl | right; reflexivity].
  - repeat split; [apply Qle_refl | exact H | left; reflexivity].
Qed.

Lemma py_max_l_of_le (a b : Q) : (b <= a)%Q -> py_max a b = a.
Proof.
  intros H. unfold py_max. destruct (Qlt_le_dec a b) as [H'|H']; [|reflexivity].
  exfalso. exact (Qlt_not_le _ _ H' H).
Qed.

Lemma Qgtb_true (a b : Q) : Qgtb a b = true <-> (b < a)%Q.
Proof.
  unfold Qgtb. rewrite negb_true_iff. split.
  - intros H. apply Qnot_le_lt. intros Hle.
    apply Qle_bool_iff in Hle. congruence.
  - intros H. destruct (Qle_bool a b) eqn:E; [|reflexivity].
    apply Qle_bool_iff in E. exfalso. exact (Qlt_not_le _ _ H E).
Qed.

Lemma Qgtb_false (a b : Q) : Qgtb a b = false <-> (a <= b)%Q.
Proof.
  unfold Qgtb. rewrite negb_false_iff. apply Qle_bool_iff.
Qed.

Lemma Qle_bool_false (a b : Q) : Qle_bool a b = false <-> (b < a)%Q.
Proof.
  rewrite <- Qgtb_true. unfold Qgtb. rewrite negb_true_iff. reflexivity.
Qed.

(** Integer logarithm base four of a positive integer. *)
Lemma log2_half_spec (m : Z) :
  1 <= m -> 4 ^ (Z.log2 m / 2) <= m < 4 ^ (Z.log2 m / 2 + 1).
Proof.
  intros Hm.
  assert (Hl : 0 <= Z.log2 m) by apply Z.log2_nonneg.
  destruct (Z.log2_spec m ltac:(lia)) as [Hlo Hhi].
  set (l := Z.log2 m) in *. set (n := l / 2).
  assert (Hn : 2 * n <= l < 2 * n + 2).
  { unfold n. pose proof (Z.div_mod l 2 ltac:(lia)).
    pose proof (Z.mod_pos_bound l 2 ltac:(lia)). lia. }
  assert (Hn0 : 0 <= n) by (unfold n; apply Z.div_pos; lia).
  assert (E4 : forall k, 0 <= k -> 4 ^ k = 2 ^ (2 * k)).
  { intros k Hk. rewrite Z.pow_mul_r by lia. reflexivity. }
  rewrite (E4 n), (E4 (n + 1)) by lia. split.
  - apply Z.le_trans with (2 ^ l); [|exact Hlo].
    apply Z.pow_le_mono_r; lia.
  - apply Z.lt_le_trans with (2 ^ Z.succ l); [exact Hhi|].
    apply Z.pow_le_mono_r; lia.
Qed.

Lemma floor_log4_nonneg (x : Q) : 0 <= floor_log4 x.
Proof.
  unfold floor_log4. apply Z.div_pos; [apply Z.log2_nonneg | lia].
Qed.

Lemma Qfloor_ge_Z (z : Z) (x : Q) : (inject_Z z <= x)%Q <-> z <= Qfloor x.
Proof.
  split; intros H.
  - rewrite <- (Qfloor_Z z). apply Qfloor_resp_le, H.
  - apply Qle_trans with (inject_Z (Qfloor x)); [|apply Qfloor_le].
    rewrite <- Zle_Qle. exact H.
Qed.

(** [floor_log4 x] is the floor of the base-four logarithm of [x]. *)
Lemma floor_log4_spec (x : Q) :
  (1 <= x)%Q ->
  (inject_Z (4 ^ floor_log4 x) <= x /\ x < inject_Z (4 ^ (floor_log4 x + 1)))%Q.
Proof.
  intros Hx.
  assert (H1 : 1 <= Qfloor x) by (apply (Qfloor_ge_Z 1 x), Hx).
  destruct (log2_half_spec _ H1) as [Hlo Hhi]. unfold floor_log4. split.
  - apply Qfloor_ge_Z, Hlo.
  - apply Qnot_le_lt. intros Hle. apply Qfloor_ge_Z in Hle. lia.
Qed.

Lemma floor_log4_largest (x : Q) (m : Z) :
  (1 <= x)%Q -> 0 <= m -> (inject_Z (4 ^ m) <= x)%Q -> m <= floor_log4 x.
Proof.
  intros Hx Hm Hle.
  destruct (floor_log4_spec x Hx) as [_ Hhi].
  destruct (Z_le_gt_dec m (floor_log4 x)) as [|Hgt]; [assumption|exfalso].
  assert (4 ^ (floor_log4 x + 1) <= 4 ^ m) by (apply Z.pow_le_mono_r; lia).
  apply (Qlt_not_le _ _ Hhi). apply Qle_trans with (inject_Z (4 ^ m)); [|exact Hle].
  rewrite <- Zle_Qle. assumption.
Qed.

Lemma VOLTAGE_BY_TIER_pos (t : Tier) : 0 < Oc.VOLTAGE_BY_TIER t.
Proof. destruct t; reflexivity. Qed.

(** Moving a positive factor across [<=]. *)
Lemma Qle_mult_div (p k c : Q) : (0 < p)%Q -> (p * k <= c <-> k <= c / p)%Q.
Proof.
  intros Hp.
  assert (Hne : ~ (p == 0)%Q).
  { intros E. rewrite E in Hp. exact (Qlt_irrefl _ Hp). }
  assert (E : (p * (c / p) == c)%Q) by (apply Qmult_div_r, Hne).
  rewrite <- (Qmult_le_l k (c / p) p Hp). rewrite E. reflexivity.
Qed.


(* ===================================================================== *)
(** ** The overclock calculator *)
(* ===================================================================== *)

(** The branch of [compute_overclock] taken for [0 < p <= capacity]. *)
Lemma compute_overclock_in_range (t p : Q) (tier : Tier) :
  (0 < p)%Q -> (p <= inject_Z (Oc.VOLTAGE_BY_TIER tier))%Q ->
  let n := floor_log4 (inject_Z (Oc.VOLTAGE_BY_TIER tier) / p) in
  let factor : Q := (if Qle_bool p 16 then 2 else 14 # 5)%Q in
  let base_ticks := Z.max 1 (Qceiling (t / Oc.TICK_S)) in
  let ticks :=
    Z.max 1 (Qceiling (inject_Z base_ticks / (if 0 <? n then factor ^ n else 1))) in
  Oc.compute_overclock t p tier =
  {| Oc.overclocks := n;
     Oc.ticks := ticks;
     Oc.seconds := inject_Z ticks * Oc.TICK_S;
     Oc.eut := p * inject_Z (4 ^ n) |}.
Proof.
  intros Hp Hcap. cbv zeta. unfold Oc.compute_overclock.
  assert (E1 : Qle_bool p 0 = false) by (apply Qle_bool_false, Hp).
  assert (E2 : Qgtb p (inject_Z (Oc.VOLTAGE_BY_TIER tier)) = false)
    by (apply Qgtb_false, Hcap).
  rewrite E1, E2.
  assert (H1 : (1 <= inject_Z (Oc.VOLTAGE_BY_TIER tier) / p)%Q).
  { apply Qle_mult_div; [exact Hp|]. rewrite Qmult_1_r. exact Hcap. }
  rewrite (py_max_l_of_le _ _ H1).
  rewrite (Z.max_r 0 _ (floor_log4_nonneg _)). reflexivity.
Qed.



Example overclock_16_HV :
  Oc.overclocks (Oc.compute_overclock 1 16 HV) = 2
  /\ (Oc.eut (Oc.compute_overclock 1 16 HV) == 256)%Q.
Proof. split; reflexivity. Qed.

Example overclock_30_EV :
  Oc.overclocks (Oc.compute_overclock 1 30 EV) = 3
  /\ (Oc.eut (Oc.compute_overclock 1 30 EV) == 1920)%Q.
Proof. split; reflexivity. Qed.

(** The branch of [compute_overclock] taken above the capacity. *)
Lemma compute_overclock_above (t p : Q) (tier : Tier) :
  (inject_Z (Oc.VOLTAGE_BY_TIER tier) < p)%Q ->
  let ticks := Z.max 1 (Qceiling (t / Oc.TICK_S)) in
  Oc.compute_overclock t p tier =
  {| Oc.overclocks := 0;
     Oc.ticks := ticks;
     Oc.seconds := inject_Z ticks * Oc.TICK_S;
     Oc.eut := p |}.
Proof.
  intros Hcap. cbv zeta. unfold Oc.compute_overclock.
  assert (Hp : (0 < p)%Q).
  { apply Qlt_trans with (inject_Z (Oc.VOLTAGE_BY_TIER tier)); [|exact Hcap].
    change 0%Q with (inject_Z 0). rewrite <- Zlt_Qlt.
    apply VOLTAGE_BY_TIER_pos. }
  assert (E1 : Qle_bool p 0 = false) by (apply Qle_bool_false, Hp).
  assert (E2 : Qgtb p (inject_Z (Oc.VOLTAGE_BY_TIER tier)) = true)
    by (apply Qgtb_true, Hcap).
  rewrite E1, E2. reflexivity.
Qed.

Lemma same_voltage_table (tier : Tier) :
  NomiCalc.VOLTAGE_BY_TIER tier = Oc.VOLTAGE_BY_TIER tier.
Proof. destruct tier; reflexivity. Qed.

(** C2, as stated, fails: a base power of 64 on LV (capacity 32) is not
    reported; the calculator returns a result and the node is resolved on
    LV with no overclock and the power left at 64. *)
Lemma voltage_exceeded_not_reported :
  (inject_Z (Oc.VOLTAGE_BY_TIER LV) < 64)%Q /\
  Oc.overclocks (Oc.compute_overclock 1 64 LV) = 0 /\
  (Oc.eut (Oc.compute_overclock 1 64 LV) == 64)%Q /\
  match Planner._solve (Planner.depth_bound press_planner) press_planner
          "plate" 1 LV None [] with
  | Ok nd =>
      PlanNode.machine_tier nd = LV /\ PlanNode.overclocks nd = 0 /\
      (PlanNode.effective_eut nd == 64)%Q /\ PlanNode.machines_needed nd = 1
  | Raise _ | OutOfFuel => False
  end.
Proof.
  split; [reflexivity|]. split; [reflexivity|]. split; [reflexivity|].
  vm_compute. repeat split; reflexivity.
Qed.

(** C2, amended.  For a base power above the capacity of the tier,
    [compute_overclock] of [oc.py] does not fail: it returns no overclock,
    the base duration rounded up to whole ticks (at least one) and the
    power unchanged, and [_solve] goes on with these values at the same
    tier.  [OverclockingRules.apply] of [nomi_calc.py] raises the error
    that carries the base power and the capacity. *)
Theorem overclock_above_capacity (tier : Tier) (t p : Q) :
  (inject_Z (Oc.VOLTAGE_BY_TIER tier) < p)%Q ->
  (let ticks := Z.max 1 (Qceiling (t / Oc.TICK_S)) in
   Oc.compute_overclock t p tier =
   {| Oc.overclocks := 0;
      Oc.ticks := ticks;
      Oc.seconds := inject_Z ticks * Oc.TICK_S;
      Oc.eut := p |})
  /\ (forall r : Recipe.t,
        Recipe.base_eut r = Some p -> Recipe.gt_recipe r = true ->
        Recipe.time_s r = t ->
        Planner.effective r tier =
        ((inject_Z (Z.max 1 (Qceiling (t / Oc.TICK_S))) * Oc.TICK_S)%Q, p, 0))
  /\ (forall base_ticks : Z,
        NomiCalc.OverclockingRules.apply
          (NomiCalc.OverclockingRules.init tier) base_ticks (Some p)
        = Raise (ExceedsVoltage p (Oc.VOLTAGE_BY_TIER tier))).
Proof.
  intros Hcap. split; [|split].
  - apply compute_overclock_above, Hcap.
  - intros r Hb Hg Ht. unfold Planner.effective. rewrite Hb, Hg, Ht.
    rewrite (compute_overclock_above t p tier Hcap). reflexivity.
  - intros base_ticks. unfold NomiCalc.OverclockingRules.apply.
    cbn [NomiCalc.OverclockingRules.init
         NomiCalc.OverclockingRules.machine_voltage].
    rewrite same_voltage_table.
    assert (E : Qgtb p (inject_Z (Oc.VOLTAGE_BY_TIER tier)) = true)
      by (apply Qgtb_true, Hcap).
    rewrite E. reflexivity.
Qed.

Lemma overclock_above_capacity_witness :
  (inject_Z (Oc.VOLTAGE_BY_TIER LV) < 64)%Q /\
  Oc.compute_overclock 1 64 LV =
    {| Oc.overclocks := 0;
       Oc.ticks := Z.max 1 (Qceiling (1 / Oc.TICK_S));
       Oc.seconds := inject_Z (Z.max 1 (Qceiling (1 / Oc.TICK_S))) * Oc.TICK_S;
       Oc.eut := 64 |}.
Proof.
  split; [reflexivity|].
  apply (overclock_above_capacity LV 1 64). reflexivity.
Defined.

(* --------------------------------------------------------------------- *)
(** *** Duration *)

Lemma Qpower_if_pos (f : Q) (n : Z) :
  0 <= n -> (if 0 <? n then f ^ n else 1)%Q = (f ^ n)%Q.
Proof.
  intros Hn. destruct (0 <? n) eqn:E; [reflexivity|].
  apply Z.ltb_ge in E. assert (n = 0) by lia. subst n. reflexivity.
Qed.

Lemma round_ticks_ge_1 (p x : Q) : 1 <= NomiCalc.OverclockingRules.round_ticks p x.
Proof.
  unfold NomiCalc.OverclockingRules.round_ticks.
  destruct (Qle_bool p 16); apply Z.le_max_l.
Qed.

(** The correction loop of [apply] never runs a turn: the tick count it
    tests is at least one. *)
Lemma step_back_noop (turns : nat) (base_ticks : Z) (p f : Q) (n k : Z) :
  1 <= k ->
  NomiCalc.OverclockingRules.step_back turns base_ticks p f n k = (n, k).
Proof.
  intros Hk. destruct turns as [|turns]; [reflexivity|]. simpl.
  assert (E : (k <? 1) = false) by (apply Z.ltb_ge; lia).
  rewrite E. reflexivity.
Qed.




(* ===================================================================== *)
(** ** The plan resolver *)
(* ===================================================================== *)


Lemma nodes_unfold (n : PlanNode.t) :
  PlanNode.nodes n = n :: flat_map PlanNode.nodes (PlanNode.children n).
Proof. destruct n; reflexivity. Qed.

Lemma for_each_Ok {A B : Type} (f : A -> outcome B) (l : list A) (bs : list B) :
  for_each f l = Ok bs -> Forall2 (fun a b => f a = Ok b) l bs.
Proof.
  revert bs. induction l as [|a l IH]; intros bs H; simpl in H.
  - injection H as <-. constructor.
  - destruct (f a) as [b| |] eqn:Ea; simpl in H; try discriminate.
    destruct (for_each f l) as [bs'| |] eqn:El; simpl in H; try discriminate.
    injection H as <-. constructor; [exact Ea | apply IH; reflexivity].
Qed.

(** A loop that raises: the elements before the raising one succeed. *)
Lemma for_each_Raise {A B : Type} (f : A -> outcome B) (l : list A)
    (e : Exception) :
  for_each f l = Raise e ->
  exists l1 a l2 bs, l = l1 ++ a :: l2
    /\ Forall2 (fun a b => f a = Ok b) l1 bs /\ f a = Raise e.
Proof.
  induction l as [|a l IH]; intros H; simpl in H; [discriminate|].
  destruct (f a) as [b| |] eqn:Ea; simpl in H; try discriminate.
  - destruct (for_each f l) as [bs'| |] eqn:El; simpl in H; try discriminate.
    injection H as ->. destruct (IH eq_refl) as (l1 & a' & l2 & bs & -> & H1 & H2).
    exists (a :: l1), a', l2, (b :: bs). repeat split; [|exact H2].
    constructor; assumption.
  - injection H as ->. exists [], a, l, []. repeat split; [constructor | exact Ea].
Qed.

Lemma for_each_OutOfFuel {A B : Type} (f : A -> outcome B) (l : list A) :
  for_each f l = OutOfFuel -> exists a, a ∈ l /\ f a = OutOfFuel.
Proof.
  induction l as [|a l IH]; intros H; simpl in H; [discriminate|].
  destruct (f a) as [b| |] eqn:Ea; simpl in H; try discriminate.
  - destruct (for_each f l) as [bs'| |] eqn:El; simpl in H; try discriminate.
    destruct (IH eq_refl) as (a' & Hin & Ha'). exists a'. split; [|exact Ha'].
    right. exact Hin.
  - exists a. split; [left | exact Ea].
Qed.

Lemma Qeq_bool_false (a b : Q) : Qeq_bool a b = false <-> ~ (a == b)%Q.
Proof.
  split.
  - intros H E. apply Qeq_bool_iff in E. congruence.
  - intros H. destruct (Qeq_bool a b) eqn:E; [|reflexivity].
    apply Qeq_bool_iff in E. contradiction.
Qed.

(** One step of [_solve] that returns a node. *)
Lemma solve_Ok_inv (fuel : nat) (self : Planner.t) (item : string) (rate : Q)
    (dt : Tier) (ov : option (gmap string Tier)) (path : list string)
    (root : PlanNode.t) :
  Planner._solve (S fuel) self item rate dt ov path = Ok root ->
  (item ∉ path) /\
  match RecipeBook.get_active_recipe (Planner.book self) item with
  | None => root = Planner.raw_node self item rate dt
  | Some r =>
      exists (out_amt : Q) (children : list PlanNode.t),
        Planner._primary_output_amount r item = Ok out_amt
        /\ ~ (out_amt == 0)%Q
        /\ for_each (fun '(in_item, in_rate) =>
                       Planner._solve fuel self in_item in_rate dt ov
                                      (path ++ [item]))
                    (input_rates r rate out_amt) = Ok children
        /\ let tier := Planner._tier_for_node r dt ov item in
           let eff := Planner.effective r tier in
           let ops := (1 / py_max (fst (fst eff)) (1 # 1000000000000))%Q in
           root =
           {| PlanNode.item := item;
              PlanNode.item_display := Planner.items_map self !! item;
              PlanNode.item_rate_per_s := rate;
              PlanNode.recipe_id := Recipe.id r;
              PlanNode.machine := Recipe.machine r;
              PlanNode.machine_tier := tier;
              PlanNode.machines_needed := Qceiling (rate / out_amt / ops);
              PlanNode.per_machine_ops_per_s := ops;
              PlanNode.effective_time_s := fst (fst eff);
              PlanNode.effective_eut := snd (fst eff);
              PlanNode.overclocks := snd eff;
              PlanNode.inputs := input_rates r rate out_amt;
              PlanNode.children := children |}
  end.
Proof.
  intros H. cbn [Planner._solve] in H.
  destruct (bool_decide (item ∈ path)) eqn:Ein; [discriminate|].
  apply bool_decide_eq_false in Ein. split; [exact Ein|].
  destruct (RecipeBook.get_active_recipe (Planner.book self) item) as [r|];
    [|injection H as <-; reflexivity].
  destruct (Planner._primary_output_amount r item) as [out_amt| |] eqn:Eout;
    cbn [bind] in H; try discriminate.
  destruct (Planner.effective r (Planner._tier_for_node r dt ov item))
    as [[eff_time eff_eut] ocs] eqn:Eeff.
  destruct (Qeq_bool out_amt 0) eqn:Ez; [discriminate|].
  apply Qeq_bool_false in Ez.
  fold (input_rates r rate out_amt) in H.
  destruct (for_each _ (input_rates r rate out_amt)) as [children| |] eqn:Ech;
    cbn [bind] in H; try discriminate.
  injection H as <-. exists out_amt, children.
  split; [reflexivity|]. split; [exact Ez|]. split; [exact Ech|].
  cbv zeta. rewrite Eeff. reflexivity.
Qed.

(** Every node of a tree returned by [_solve] is resolved from the
    catalog, and the root is the node of the item asked for. *)
Lemma solve_resolved (fuel : nat) (self : Planner.t) (dt : Tier)
    (ov : option (gmap string Tier)) :
  forall (item : string) (rate : Q) (path : list string) (root : PlanNode.t),
    Planner._solve fuel self item rate dt ov path = Ok root ->
    PlanNode.item root = item /\ PlanNode.item_rate_per_s root = rate
    /\ Forall (resolved self dt ov) (PlanNode.nodes root).
Proof.
  induction fuel as [|fuel IH]; intros item rate path root H; [discriminate|].
  apply solve_Ok_inv in H. destruct H as [_ H].
  destruct (RecipeBook.get_active_recipe (Planner.book self) item) as [r|] eqn:Er.
  - destruct H as (out_amt & children & Hout & Hz & Hch & Hroot).
    cbv zeta in Hroot. subst root. cbn [PlanNode.item PlanNode.item_rate_per_s].
    split; [reflexivity|]. split; [reflexivity|].
    apply for_each_Ok in Hch.
    assert (Hkids :
      Forall2 (fun c (ir : string * Q) =>
                 PlanNode.item c = fst ir /\ PlanNode.item_rate_per_s c = snd ir)
              children (input_rates r rate out_amt)
      /\ Forall (resolved self dt ov) (flat_map PlanNode.nodes children)).
    { induction Hch as [|[it rt] c l cs Hc _ IHl].
      - split; constructor.
      - destruct (IH _ _ _ _ Hc) as (Hi & Hr & Hn). destruct IHl as [IH1 IH2].
        split; [constructor; [split; assumption | exact IH1]|].
        cbn [flat_map]. apply Forall_app. split; assumption. }
    destruct Hkids as [Hk1 Hk2].
    rewrite nodes_unfold. cbn [PlanNode.children]. constructor; [|exact Hk2].
    unfold resolved. cbn [PlanNode.item]. rewrite Er. exists out_amt.
    cbn. split; [exact Hout|]. split; [exact Hz|]. split; [reflexivity|].
    split; [destruct (Planner.effective r _) as [[? ?] ?]; reflexivity|].
    repeat (split; [reflexivity|]). exact Hk1.
  - subst root. cbn [Planner.raw_node PlanNode.item PlanNode.item_rate_per_s].
    split; [reflexivity|]. split; [reflexivity|].
    constructor; [|constructor].
    unfold resolved. cbn [PlanNode.item]. rewrite Er. reflexivity.
Qed.

(** Each node of a returned tree is resolved from the catalog. *)
Lemma node_resolved (fuel : nat) (self : Planner.t) (item : string)
    (rate : Q) (dt : Tier) (ov : option (gmap string Tier))
    (path : list string) (root nd : PlanNode.t) :
  Planner._solve fuel self item rate dt ov path = Ok root ->
  nd ∈ PlanNode.nodes root ->
  resolved self dt ov nd.
Proof.
  intros Hsolve Hnd.
  destruct (solve_resolved _ _ _ _ _ _ _ _ Hsolve) as (_ & _ & Hall).
  rewrite Forall_forall in Hall. exact (Hall nd Hnd).
Qed.

(** One step of [_solve], by cases. *)
Lemma solve_S (fuel : nat) (self : Planner.t) (item : string) (rate : Q)
    (dt : Tier) (ov : option (gmap string Tier)) (path : list string) :
  Planner._solve (S fuel) self item rate dt ov path =
  if bool_decide (item ∈ path) then Raise (CycleDetected (path ++ [item]))
  else
    match RecipeBook.get_active_recipe (Planner.book self) item with
    | None => Ok (Planner.raw_node self item rate dt)
    | Some r =>
        match Planner._primary_output_amount r item with
        | Ok out_amt =>
            if Qeq_bool out_amt 0 then Raise ZeroDivisionError
            else
              match for_each (fun '(in_item, in_rate) =>
                                Planner._solve fuel self in_item in_rate dt ov
                                               (path ++ [item]))
                             (input_rates r rate out_amt) with
              | Ok children =>
                  Ok (built_node self item rate dt ov r out_amt children)
              | Raise e => Raise e
              | OutOfFuel => OutOfFuel
              end
        | Raise e => Raise e
        | OutOfFuel => OutOfFuel
        end
    end.
Proof.
  cbn [Planner._solve].
  destruct (bool_decide (item ∈ path)); [reflexivity|].
  destruct (RecipeBook.get_active_recipe (Planner.book self) item) as [r|];
    [|reflexivity].
  destruct (Planner._primary_output_amount r item) as [out_amt| |];
    cbn [bind]; try reflexivity.
  unfold built_node.
  destruct (Planner.effective r (Planner._tier_for_node r dt ov item))
    as [[eff_time eff_eut] ocs].
  destruct (Qeq_bool out_amt 0); [reflexivity|].
  fold (input_rates r rate out_amt).
  destruct (for_each _ (input_rates r rate out_amt)); reflexivity.
Qed.

Lemma for_each_mono {A B : Type} (f g : A -> outcome B) (l : list A)
    (res : outcome (list B)) :
  (forall a b, a ∈ l -> f a = b -> b <> OutOfFuel -> g a = b) ->
  for_each f l = res -> res <> OutOfFuel -> for_each g l = res.
Proof.
  revert res. induction l as [|a l IH]; intros res Hfg H Hres; simpl in *;
    [exact H|].
  destruct (f a) as [b| |] eqn:Ea; cbn [bind] in H.
  - rewrite (Hfg a (Ok b)); [|left|exact Ea|discriminate]. cbn [bind].
    destruct (for_each f l) as [bs| |] eqn:El; cbn [bind] in H.
    + rewrite (IH (Ok bs)); [exact H| |reflexivity|discriminate].
      intros a' b' Ha'. apply Hfg. right. exact Ha'.
    + rewrite (IH (Raise e)); [exact H| |reflexivity|discriminate].
      intros a' b' Ha'. apply Hfg. right. exact Ha'.
    + congruence.
  - rewrite (Hfg a (Raise e)); [exact H|left|exact Ea|discriminate].
  - congruence.
Qed.

(** A result obtained with some fuel is obtained with any larger fuel. *)
Lemma solve_fuel_S (fuel : nat) (self : Planner.t) (dt : Tier)
    (ov : option (gmap string Tier)) :
  forall (item : string) (rate : Q) (path : list string)
         (res : outcome PlanNode.t),
    Planner._solve fuel self item rate dt ov path = res ->
    res <> OutOfFuel ->
    Planner._solve (S fuel) self item rate dt ov path = res.
Proof.
  induction fuel as [|fuel IH]; intros item rate path res H Hres;
    [simpl in H; congruence|].
  rewrite solve_S in H. rewrite solve_S.
  destruct (bool_decide (item ∈ path)); [exact H|].
  destruct (RecipeBook.get_active_recipe (Planner.book self) item) as [r|];
    [|exact H].
  destruct (Planner._primary_output_amount r item) as [out_amt| |];
    [|exact H|exact H].
  destruct (Qeq_bool out_amt 0); [exact H|].
  match type of H with
  | match for_each ?f ?l with _ => _ end = _ =>
      match goal with
      | |- match for_each ?g _ with _ => _ end = _ =>
          assert (Hfg : forall res', for_each f l = res' ->
                                     res' <> OutOfFuel -> for_each g l = res')
      end
  end.
  { intros res'. apply for_each_mono.
    intros [it rt] b _ Hb Hne. apply IH; assumption. }
  destruct (for_each _ (input_rates r rate out_amt)) as [cs|e|] eqn:Ech.
  - rewrite (Hfg _ eq_refl) by discriminate. exact H.
  - rewrite (Hfg _ eq_refl) by discriminate. exact H.
  - congruence.
Qed.

Lemma solve_fuel_mono (fuel fuel' : nat) (self : Planner.t) (dt : Tier)
    (ov : option (gmap string Tier)) (item : string) (rate : Q)
    (path : list string) (res : outcome PlanNode.t) :
  (fuel <= fuel')%nat ->
  Planner._solve fuel self item rate dt ov path = res ->
  res <> OutOfFuel ->
  Planner._solve fuel' self item rate dt ov path = res.
Proof.
  induction 1 as [|fuel' _ IH]; intros H Hres; [exact H|].
  apply solve_fuel_S; [apply IH; assumption | exact Hres].
Qed.

Lemma get_active_recipe_dom (self : Planner.t) (item : string) (r : Recipe.t) :
  RecipeBook.get_active_recipe (Planner.book self) item = Some r ->
  item ∈ dom (RecipeBook.active_by_output (Planner.book self)).
Proof.
  unfold RecipeBook.get_active_recipe. intros H. apply elem_of_dom.
  destruct (RecipeBook.active_by_output (Planner.book self) !! item);
    [eauto | discriminate].
Qed.

Lemma path_length_bound (self : Planner.t) (path : list string) :
  NoDup path ->
  (forall x, x ∈ path ->
             x ∈ dom (RecipeBook.active_by_output (Planner.book self))) ->
  (length path <= size (RecipeBook.active_by_output (Planner.book self)))%nat.
Proof.
  intros Hnd Hsub.
  rewrite <- (size_list_to_set (C := gset string) path Hnd).
  rewrite <- size_dom. apply subseteq_size.
  intros x Hx. apply elem_of_list_to_set in Hx. apply Hsub, Hx.
Qed.

(** The recursion of [_solve] ends: a path holds distinct items with an
    active recipe, so the depth stays within the number of such items. *)
Lemma solve_enough_fuel (self : Planner.t) (dt : Tier)
    (ov : option (gmap string Tier)) :
  forall (fuel : nat) (item : string) (rate : Q) (path : list string),
    NoDup path ->
    (forall x, x ∈ path ->
               x ∈ dom (RecipeBook.active_by_output (Planner.book self))) ->
    (size (RecipeBook.active_by_output (Planner.book self))
       < fuel + length path)%nat ->
    Planner._solve fuel self item rate dt ov path <> OutOfFuel.
Proof.
  induction fuel as [|fuel IH]; intros item rate path Hnd Hsub Hlt.
  - pose proof (path_length_bound self path Hnd Hsub). simpl in Hlt. lia.
  - rewrite solve_S.
    destruct (bool_decide (item ∈ path)) eqn:Ein; [discriminate|].
    apply bool_decide_eq_false in Ein.
    destruct (RecipeBook.get_active_recipe (Planner.book self) item) as [r|] eqn:Er;
      [|discriminate].
    destruct (Planner._primary_output_amount r item) as [out_amt|e|] eqn:Eo;
      [|discriminate|].
    2: { unfold Planner._primary_output_amount in Eo.
         destruct (dict_get _ _); [discriminate|].
         destruct (Recipe.outputs r) as [|[? ?] ?]; discriminate. }
    destruct (Qeq_bool out_amt 0); [discriminate|].
    destruct (for_each _ (input_rates r rate out_amt)) as [cs|e|] eqn:Ech;
      [discriminate|discriminate|].
    exfalso. apply for_each_OutOfFuel in Ech.
    destruct Ech as ([it rt] & _ & Hoof). revert Hoof. apply IH.
    + apply NoDup_app. split; [exact Hnd|]. split; [|apply NoDup_singleton].
      intros x Hx Hx'. apply list_elem_of_singleton in Hx'. subst x. contradiction.
    + intros x Hx. apply elem_of_app in Hx. destruct Hx as [Hx|Hx];
        [apply Hsub, Hx|].
      apply list_elem_of_singleton in Hx. subst x.
      eapply get_active_recipe_dom, Er.
    + rewrite length_app. simpl. lia.
Qed.

(** With the depth bound as fuel, [_solve] from the empty path returns a
    node or raises. *)
Lemma solve_total (self : Planner.t) (item : string) (rate : Q) (dt : Tier)
    (ov : option (gmap string Tier)) :
  Planner._solve (Planner.depth_bound self) self item rate dt ov []
  <> OutOfFuel.
Proof.
  apply solve_enough_fuel; [constructor | |].
  - intros x Hx. inversion Hx.
  - unfold Planner.depth_bound. simpl. lia.
Qed.

(* --------------------------------------------------------------------- *)
(** *** Machine counts *)

Lemma Qceiling_pos (x : Q) : (0 < x)%Q -> 1 <= Qceiling x.
Proof.
  intros Hx. assert (H : (0 < inject_Z (Qceiling x))%Q)
    by (eapply Qlt_le_trans; [exact Hx | apply Qle_ceiling]).
  change 0%Q with (inject_Z 0) in H. rewrite <- Zlt_Qlt in H. lia.
Qed.








(** As in the scenario of the specification: 3 items per second from a
    recipe of 5 s that yields one item per operation need 15 machines. *)
Example fifteen_machines :
  PlanNode.machines_needed (ingot_node 3) = 15
  /\ PlanNode.machines_needed (ingot_node (3 / 1 * 2)) = 30
  /\ PlanNode.machines_needed dust_node = 1.
Proof. vm_compute. repeat split; reflexivity. Qed.

(* --------------------------------------------------------------------- *)
(** *** Durations *)

(** The duration [compute_overclock] returns is at least one tick, in each
    of its three branches. *)
Lemma compute_overclock_seconds_ge_tick (t p : Q) (tier : Tier) :
  (1 # 20 <= Oc.seconds (Oc.compute_overclock t p tier))%Q.
Proof.
  assert (Hticks : forall k : Z, (1 # 20 <= inject_Z (Z.max 1 k) * Oc.TICK_S)%Q).
  { intros k. unfold Oc.TICK_S.
    apply Qle_trans with (inject_Z 1 * (1 # 20))%Q; [discriminate|].
    apply Qmult_le_compat_r; [|discriminate].
    rewrite <- Zle_Qle. apply Z.le_max_l. }
  unfold Oc.compute_overclock.
  destruct (Qle_bool p 0).
  - cbn [Oc.seconds]. apply (py_max_spec Oc.TICK_S t).
  - destruct (Qgtb p (inject_Z (Oc.VOLTAGE_BY_TIER tier)));
      cbn [Oc.seconds]; apply Hticks.
Qed.

(** C6, as stated, fails: the node of a raw input has the effective
    duration 0, and the node of a recipe without power draw keeps the base
    duration of the recipe, here 1/100 s; both are below one tick. *)
Lemma duration_below_tick :
  match Planner._solve (Planner.depth_bound (smelt_planner (1 # 100)))
          (smelt_planner (1 # 100)) "ingot" 1 LV None [] with
  | Ok nd =>
      (PlanNode.effective_time_s nd < 1 # 20)%Q
      /\ Forall (fun c => (PlanNode.effective_time_s c == 0)%Q
                          /\ PlanNode.machine c = "RAW")
                (PlanNode.children nd)
      /\ length (PlanNode.children nd) = 1%nat
  | Raise _ | OutOfFuel => False
  end.
Proof.
  vm_compute. split; [reflexivity|]. split; [|reflexivity].
  constructor; [|constructor]. split; reflexivity.
Qed.

(** C6, amended.  In every resolved tree, a node whose recipe declares a
    power draw and is marked as overclockable has an effective duration of
    at least one tick (1/20 s), whatever the overclock count; the node of
    a raw input has the duration 0, and the node of any other recipe has
    the base duration of the recipe unchanged. *)
Theorem effective_time_floor (fuel : nat) (self : Planner.t)
    (item : string) (rate : Q) (dt : Tier) (ov : option (gmap string Tier))
    (path : list string) (root nd : PlanNode.t) :
  Planner._solve fuel self item rate dt ov path = Ok root ->
  nd ∈ PlanNode.nodes root ->
  match RecipeBook.get_active_recipe (Planner.book self) (PlanNode.item nd) with
  | None => PlanNode.effective_time_s nd = 0%Q
  | Some r =>
      match Recipe.base_eut r with
      | Some _ =>
          if Recipe.gt_recipe r
          then (1 # 20 <= PlanNode.effective_time_s nd)%Q
          else PlanNode.effective_time_s nd = Recipe.time_s r
      | None => PlanNode.effective_time_s nd = Recipe.time_s r
      end
  end.
Proof.
  intros Hsolve Hnd.
  pose proof (node_resolved _ _ _ _ _ _ _ _ _ Hsolve Hnd) as Hall.
  unfold resolved in Hall.
  destruct (RecipeBook.get_active_recipe _ _) as [r|].
  - destruct Hall as (out_amt & _ & _ & _ & Heff & _).
    unfold Planner.effective in Heff.
    destruct (Recipe.base_eut r) as [p|];
      [destruct (Recipe.gt_recipe r)|]; injection Heff as -> _ _;
      [apply compute_overclock_seconds_ge_tick | reflexivity | reflexivity].
  - rewrite Hall. reflexivity.
Qed.

Lemma effective_time_floor_witness :
  Planner._solve (Planner.depth_bound dust_planner) dust_planner "dust" 3 LV
    dust_overrides [] = Ok dust_node
  /\ dust_node ∈ PlanNode.nodes dust_node
  /\ (1 # 20 <= PlanNode.effective_time_s dust_node)%Q.
Proof.
  assert (H1 : Planner._solve (Planner.depth_bound dust_planner) dust_planner
                 "dust" 3 LV dust_overrides [] = Ok dust_node)
    by (vm_compute; reflexivity).
  assert (H2 : dust_node ∈ PlanNode.nodes dust_node) by left.
  split; [exact H1|]. split; [exact H2|].
  exact (effective_time_floor _ _ _ _ _ _ _ _ _ H1 H2).
Defined.

(* --------------------------------------------------------------------- *)
(** *** Tiers *)

(** [_tier_for_node] is the tier the specification describes. *)
Lemma tier_for_node_spec (r : Recipe.t) (dt : Tier)
    (ov : option (gmap string Tier)) (item : string) :
  Planner._tier_for_node r dt ov item
  = Spec.node_tier (ov ≫= (fun m => m !! item)) dt (Recipe.base_voltage r).
Proof.
  unfold Planner._tier_for_node, Spec.node_tier, Oc.VOLTAGE_BY_TIER_get.
  destruct ov as [m|]; cbn [default mbind option_bind];
    [|rewrite lookup_empty]; reflexivity.
Qed.

Lemma node_tier_capacity (override : option Tier) (dt : Tier)
    (minimum : option Tier) :
  let start := default dt override in
  Oc.VOLTAGE_BY_TIER (Spec.node_tier override dt minimum)
  = match minimum with
    | Some b => Z.max (Oc.VOLTAGE_BY_TIER start) (Oc.VOLTAGE_BY_TIER b)
    | None => Oc.VOLTAGE_BY_TIER start
    end.
Proof.
  cbv zeta. unfold Spec.node_tier. destruct minimum as [b|]; [|reflexivity].
  destruct (Z.ltb_spec (Oc.VOLTAGE_BY_TIER (default dt override))
                       (Oc.VOLTAGE_BY_TIER b)); lia.
Qed.

(** C7.  In every resolved tree, the tier of a node whose item has an
    active recipe is the per-item override if there is one, else the
    default tier, raised to the minimum voltage the recipe declares when
    the capacity of the former is below the capacity of the latter, and
    never lowered; the duration, power and overclock count of the node are
    those of its recipe at this tier. *)
Theorem node_tier_own (fuel : nat) (self : Planner.t)
    (item : string) (rate : Q) (dt : Tier) (ov : option (gmap string Tier))
    (path : list string) (root nd : PlanNode.t) (r : Recipe.t) :
  Planner._solve fuel self item rate dt ov path = Ok root ->
  nd ∈ PlanNode.nodes root ->
  RecipeBook.get_active_recipe (Planner.book self) (PlanNode.item nd) = Some r ->
  let override := ov ≫= (fun m => m !! PlanNode.item nd) in
  let start := default dt override in
  let tier := PlanNode.machine_tier nd in
  tier = Spec.node_tier override dt (Recipe.base_voltage r)
  /\ Oc.VOLTAGE_BY_TIER start <= Oc.VOLTAGE_BY_TIER tier
  /\ (Recipe.base_voltage r = None -> tier = start)
  /\ (forall b, Recipe.base_voltage r = Some b ->
        Oc.VOLTAGE_BY_TIER tier
        = Z.max (Oc.VOLTAGE_BY_TIER start) (Oc.VOLTAGE_BY_TIER b)
        /\ (tier = b \/ tier = start))
  /\ (forall p, Recipe.base_eut r = Some p -> Recipe.gt_recipe r = true ->
        let oc := Oc.compute_overclock (Recipe.time_s r) p tier in
        PlanNode.effective_time_s nd = Oc.seconds oc
        /\ PlanNode.effective_eut nd = Oc.eut oc
        /\ PlanNode.overclocks nd = Oc.overclocks oc)
  /\ (Recipe.base_eut r = None \/ Recipe.gt_recipe r = false ->
        PlanNode.effective_time_s nd = Recipe.time_s r
        /\ PlanNode.effective_eut nd = 0%Q
        /\ PlanNode.overclocks nd = 0).
Proof.
  intros Hsolve Hnd Hr override start tier.
  pose proof (node_resolved _ _ _ _ _ _ _ _ _ Hsolve Hnd) as Hall.
  unfold resolved in Hall. rewrite Hr in Hall.
  destruct Hall as (out_amt & _ & _ & Htier & Heff & _).
  rewrite tier_for_node_spec in Htier. fold override in Htier. fold tier in Htier, Heff.
  pose proof (node_tier_capacity override dt (Recipe.base_voltage r)) as Hcap.
  cbv zeta in Hcap. rewrite <- Htier in Hcap. fold start in Hcap.
  split; [exact Htier|]. split; [|split; [|split; [|split]]].
  - destruct (Recipe.base_voltage r); lia.
  - intros Hb. rewrite Hb in Htier. exact Htier.
  - intros b Hb. rewrite Hb in Hcap, Htier. split; [exact Hcap|].
    unfold Spec.node_tier in Htier. fold start in Htier.
    destruct (_ <? _) in Htier; [left | right]; exact Htier.
  - intros p Hp Hg. cbv zeta. unfold Planner.effective in Heff.
    rewrite Hp, Hg in Heff. injection Heff as -> -> ->. repeat split.
  - intros Hno. unfold Planner.effective in Heff.
    destruct Hno as [Hno|Hno].
    + rewrite Hno in Heff. injection Heff as -> -> ->. repeat split.
    + rewrite Hno in Heff. destruct (Recipe.base_eut r);
        injection Heff as -> -> ->; repeat split.
Qed.

Lemma node_tier_own_witness :
  Planner._solve (Planner.depth_bound dust_planner) dust_planner "dust" 3 LV
    dust_overrides [] = Ok dust_node
  /\ dust_node ∈ PlanNode.nodes dust_node
  /\ RecipeBook.get_active_recipe (Planner.book dust_planner) "dust"
     = Some dust_recipe
  /\ PlanNode.machine_tier dust_node = Spec.node_tier (Some HV) LV (Some IV)
  /\ PlanNode.machine_tier dust_node = IV.
Proof.
  assert (H1 : Planner._solve (Planner.depth_bound dust_planner) dust_planner
                 "dust" 3 LV dust_overrides [] = Ok dust_node)
    by (vm_compute; reflexivity).
  assert (H2 : dust_node ∈ PlanNode.nodes dust_node) by left.
  assert (H3 : RecipeBook.get_active_recipe (Planner.book dust_planner) "dust"
               = Some dust_recipe) by (vm_compute; reflexivity).
  split; [exact H1|]. split; [exact H2|]. split; [exact H3|].
  split; [|reflexivity].
  exact (proj1 (node_tier_own _ _ _ _ _ _ _ _ _ _ H1 H2 H3)).
Defined.

(** The override of [ingot] to MV stands (the recipe declares no minimum),
    and the nodes of [ore] are on the default tier LV although the
    overrides send [ore] to UV. *)
Example tiers_of_dust_tree :
  map (fun n => (PlanNode.item n, PlanNode.machine_tier n))
      (PlanNode.nodes dust_node)
  = [("dust", IV); ("ingot", MV); ("ore", LV); ("ore", LV)].
Proof. reflexivity. Qed.

(** C10.  For an item without active recipe, [_solve] returns the raw
    node, whose tier is the default tier whatever the tier overrides say
    about the item. *)
Theorem raw_node_default_tier (fuel : nat) (self : Planner.t)
    (item : string) (rate : Q) (dt : Tier) (ov : option (gmap string Tier))
    (path : list string) :
  RecipeBook.get_active_recipe (Planner.book self) item = None ->
  item ∉ path ->
  exists nd : PlanNode.t,
    Planner._solve (S fuel) self item rate dt ov path = Ok nd
    /\ PlanNode.item nd = item
    /\ PlanNode.machine nd = "RAW"
    /\ PlanNode.recipe_id nd = "<raw>"
    /\ PlanNode.children nd = []
    /\ PlanNode.machine_tier nd = dt.
Proof.
  intros Hr Hpath. exists (Planner.raw_node self item rate dt).
  rewrite solve_S, Hr.
  rewrite (bool_decide_eq_false_2 _ Hpath). repeat split.
Qed.

Lemma raw_node_default_tier_witness :
  RecipeBook.get_active_recipe (Planner.book dust_planner) "ore" = None
  /\ ("ore" ∉ ["dust"])
  /\ dust_overrides ≫= (fun m => m !! "ore") = Some UV
  /\ exists nd : PlanNode.t,
       Planner._solve 1 dust_planner "ore" 3 LV dust_overrides ["dust"] = Ok nd
       /\ PlanNode.machine_tier nd = LV.
Proof.
  assert (H1 : RecipeBook.get_active_recipe (Planner.book dust_planner) "ore"
               = None) by (vm_compute; reflexivity).
  assert (H2 : "ore" ∉ ["dust"]).
  { intros H. apply list_elem_of_singleton in H. discriminate. }
  split; [exact H1|]. split; [exact H2|]. split; [vm_compute; reflexivity|].
  destruct (raw_node_default_tier 0 dust_planner "ore" 3 LV dust_overrides
              ["dust"] H1 H2) as (nd & Hs & _ & _ & _ & _ & Ht).
  exists nd. split; [exact Hs | exact Ht].
Defined.

(** In a resolved tree, each node whose item has no active recipe is on
    the default tier. *)
Lemma raw_nodes_default_tier (fuel : nat) (self : Planner.t)
    (item : string) (rate : Q) (dt : Tier) (ov : option (gmap string Tier))
    (path : list string) (root nd : PlanNode.t) :
  Planner._solve fuel self item rate dt ov path = Ok root ->
  nd ∈ PlanNode.nodes root ->
  RecipeBook.get_active_recipe (Planner.book self) (PlanNode.item nd) = None ->
  PlanNode.machine_tier nd = dt /\ PlanNode.machine nd = "RAW".
Proof.
  intros Hsolve Hnd Hr.
  pose proof (node_resolved _ _ _ _ _ _ _ _ _ Hsolve Hnd) as Hall.
  unfold resolved in Hall. rewrite Hr in Hall. rewrite Hall. split; reflexivity.
Qed.

(* --------------------------------------------------------------------- *)
(** *** Output quantities *)

(** C9, as stated, fails: the active recipe of [alloy_ingot] lists only
    [slag]; no error is reported, the quantity 4 of [slag] is taken and the
    node is resolved with it (8 items per second at 1 s and 4 per
    operation: 2 machines). *)
Lemma missing_output_not_reported :
  RecipeBook.get_active_recipe (Planner.book alloy_planner) "alloy_ingot"
    = Some alloy_recipe
  /\ dict_get (Recipe.outputs alloy_recipe) "alloy_ingot" = None
  /\ Planner._primary_output_amount alloy_recipe "alloy_ingot" = Ok 4%Q
  /\ match Planner._solve (Planner.depth_bound alloy_planner) alloy_planner
             "alloy_ingot" 8 LV None [] with
     | Ok nd => PlanNode.recipe_id nd = "alloy" /\ PlanNode.machines_needed nd = 2
     | Raise _ | OutOfFuel => False
     end.
Proof. vm_compute. repeat split; reflexivity. Qed.

(** C9, amended.  When the recipe does not list the item among its
    outputs, [_primary_output_amount] of [plan.py] takes the quantity of
    the first listed output, and raises an error, whose message carries
    the recipe id alone, only when the recipe lists no output at all.
    [_choose_output_amount] of [nomi_calc.py] raises the error that
    carries the recipe id and the item, and [_solve_node] stops with
    it. *)
Theorem missing_output (r : Recipe.t) (r' : NomiCalc.Recipe.t)
    (item : string) :
  dict_get (Recipe.outputs r) item = None ->
  dict_get (NomiCalc.Recipe.outputs r') item = None ->
  (forall k v rest, Recipe.outputs r = (k, v) :: rest ->
     Planner._primary_output_amount r item = Ok v)
  /\ (Recipe.outputs r = [] ->
      Planner._primary_output_amount r item = Raise (NoOutputs (Recipe.id r))
      /\ Planner.error_message (NoOutputs (Recipe.id r))
         = "Recipe " +:+ Recipe.id r +:+ " has no outputs")
  /\ NomiCalc.Planner._choose_output_amount r' item
     = Raise (DoesNotOutput (NomiCalc.Recipe.id r') item)
  /\ NomiCalc.Planner.error_message (DoesNotOutput (NomiCalc.Recipe.id r') item)
     = "Recipe " +:+ NomiCalc.Recipe.id r' +:+ " does not output " +:+ item
  /\ (forall fuel self rate tier visited,
        NomiCalc.RecipeBook.get_active_for (NomiCalc.Planner.rb self) item
          = Some r' ->
        item ∉ visited ->
        NomiCalc.Planner._solve_node (S fuel) self item rate tier visited
        = Raise (DoesNotOutput (NomiCalc.Recipe.id r') item)).
Proof.
  intros Hcore Hold. split; [|split; [|split; [|split]]].
  - intros k v rest Hout. unfold Planner._primary_output_amount.
    rewrite Hcore, Hout. reflexivity.
  - intros Hout. unfold Planner._primary_output_amount.
    rewrite Hcore, Hout. split; reflexivity.
  - unfold NomiCalc.Planner._choose_output_amount. rewrite Hold. reflexivity.
  - reflexivity.
  - intros fuel self rate tier visited Hr Hv.
    cbn [NomiCalc.Planner._solve_node].
    rewrite (bool_decide_eq_false_2 _ Hv), Hr.
    unfold NomiCalc.Planner._choose_output_amount. rewrite Hold. reflexivity.
Qed.

Lemma missing_output_witness :
  dict_get (Recipe.outputs alloy_recipe) "alloy_ingot" = None
  /\ dict_get (NomiCalc.Recipe.outputs
                 (NomiCalc.Recipe.mk "alloy" "alloy smelter" 1 []
                    [("slag", 4%Q)] None)) "alloy_ingot" = None
  /\ Planner._primary_output_amount alloy_recipe "alloy_ingot" = Ok 4%Q
  /\ NomiCalc.Planner._choose_output_amount
       (NomiCalc.Recipe.mk "alloy" "alloy smelter" 1 [] [("slag", 4%Q)] None)
       "alloy_ingot"
     = Raise (DoesNotOutput "alloy" "alloy_ingot").
Proof.
  assert (H1 : dict_get (Recipe.outputs alloy_recipe) "alloy_ingot" = None)
    by reflexivity.
  assert (H2 : dict_get (NomiCalc.Recipe.outputs
                 (NomiCalc.Recipe.mk "alloy" "alloy smelter" 1 []
                    [("slag", 4%Q)] None)) "alloy_ingot" = None)
    by reflexivity.
  split; [exact H1|]. split; [exact H2|].
  destruct (missing_output alloy_recipe _ "alloy_ingot" H1 H2)
    as (Hfirst & _ & Hraise & _).
  split; [exact (Hfirst "slag" 4%Q [] eq_refl) | exact Hraise].
Defined.

(* ===================================================================== *)
(** ** The summary aggregator *)
(* ===================================================================== *)







(** A subtree that occurs twice is counted twice: the two smelter nodes of
    the gear tree, one under the plate and one under the rod, add up. *)
Example gear_summary :
  match Planner._solve (Planner.depth_bound gear_planner) gear_planner
          "gear" 3 LV None [] with
  | Ok root =>
      map PlanNode.item (PlanNode.nodes root)
      = ["gear"; "plate"; "ingot"; "ore"; "rod"; "ingot"; "ore"]
      /\ Planner._summary root !! "smelter [LV]" = Some (6, 0%Q)
      /\ Planner._summary root !! "assembler [LV]" = Some (3, 0%Q)
      /\ Planner._summary root !! "RAW [LV]" = None
  | Raise _ | OutOfFuel => False
  end.
Proof. vm_compute. repeat split; reflexivity. Qed.


(* ===================================================================== *)
(** ** Cycle detection *)
(* ===================================================================== *)

(** C5 on [nomi_calc.py].  On the acyclic gear catalog, where the raw
    input [ore] is reached through the plate and again through the rod,
    [_solve_node] raises the cycle error for [ore]: the return for a raw
    input leaves the item in the shared set [visited], and only the return
    for an item with a recipe removes it.  Any recursion depth of four or
    more gives this result. *)
Theorem old_solver_false_cycle (k : nat) :
  NomiCalc.Planner._solve_node (4 + k) old_gear_planner "gear" 1 LV ∅
  = Raise (CycleDetected ["ore"]).
Proof. vm_compute. reflexivity. Qed.

(** What is left in [visited] once the plate branch is done: the raw
    input of the branch. *)
Example old_solver_leaves_raw_item :
  match NomiCalc.Planner._solve_node 3 old_gear_planner "plate" 1 LV {["gear"]}
  with
  | Ok (_, visited) => visited = {["gear"; "ore"]}
  | Raise _ | OutOfFuel => False
  end.
Proof. vm_compute. reflexivity. Qed.

(* --------------------------------------------------------------------- *)
(** *** [plan.py]: cycles along the ancestor path *)

Lemma input_rates_fst (r : Recipe.t) (rate amt : Q) :
  map fst (input_rates r rate amt) = map fst (Recipe.inputs r).
Proof.
  unfold input_rates. induction (Recipe.inputs r) as [|[k v] l IH];
    [reflexivity|]. cbn [map fst]. rewrite IH. reflexivity.
Qed.

(** One step of [_solve] that raises. *)
Lemma solve_Raise_inv (fuel : nat) (self : Planner.t) (item : string)
    (rate : Q) (dt : Tier) (ov : option (gmap string Tier))
    (path : list string) (e : Exception) :
  Planner._solve (S fuel) self item rate dt ov path = Raise e ->
  (item ∈ path /\ e = CycleDetected (path ++ [item]))
  \/ ((item ∉ path)
      /\ exists r,
           RecipeBook.get_active_recipe (Planner.book self) item = Some r
           /\ (Planner._primary_output_amount r item = Raise e
               \/ (exists amt, Planner._primary_output_amount r item = Ok amt
                               /\ (amt == 0)%Q /\ e = ZeroDivisionError)
               \/ (exists amt x rt,
                     Planner._primary_output_amount r item = Ok amt
                     /\ x ∈ map fst (Recipe.inputs r)
                     /\ Planner._solve fuel self x rt dt ov (path ++ [item])
                        = Raise e))).
Proof.
  rewrite solve_S. intros H.
  destruct (bool_decide (item ∈ path)) eqn:Ein.
  - apply bool_decide_eq_true in Ein. injection H as <-. left. split; trivial.
  - apply bool_decide_eq_false in Ein. right. split; [exact Ein|].
    destruct (RecipeBook.get_active_recipe (Planner.book self) item) as [r|];
      [|discriminate].
    exists r. split; [reflexivity|].
    destruct (Planner._primary_output_amount r item) as [amt|e'|];
      [|left; injection H as ->; reflexivity|discriminate].
    right. destruct (Qeq_bool amt 0) eqn:Ez.
    + injection H as <-. left. exists amt. apply Qeq_bool_iff in Ez. auto.
    + right.
      destruct (for_each _ (input_rates r rate amt)) as [cs|e'|] eqn:Ech;
        try discriminate.
      injection H as ->. apply for_each_Raise in Ech.
      destruct Ech as (l1 & [x rt] & l2 & bs & Hl & _ & Hx).
      exists amt, x, rt. split; [reflexivity|]. split; [|exact Hx].
      rewrite <- (input_rates_fst r rate amt), Hl, map_app.
      apply elem_of_app. right. left.
Qed.

Lemma for_each_Ok_elem {A B : Type} (f : A -> outcome B) (l : list A)
    (bs : list B) (a : A) :
  for_each f l = Ok bs -> a ∈ l -> exists b, f a = Ok b.
Proof.
  intros H Ha. apply for_each_Ok in H.
  induction H as [|a' b l bs Hab _ IH]; [inversion Ha|].
  apply elem_of_cons in Ha. destruct Ha as [->|Ha]; [eauto | exact (IH Ha)].
Qed.

(** When the node of an item is returned, each item it consumes was
    resolved below it, with the item appended to the path. *)
Lemma solve_Ok_child (fuel : nat) (self : Planner.t) (item : string)
    (rate : Q) (dt : Tier) (ov : option (gmap string Tier))
    (path : list string) (root : PlanNode.t) (x : string) :
  Planner._solve (S fuel) self item rate dt ov path = Ok root ->
  consumes self item x ->
  exists rt child,
    Planner._solve fuel self x rt dt ov (path ++ [item]) = Ok child.
Proof.
  intros H (r & Hr & Hx). apply solve_Ok_inv in H. destruct H as [_ H].
  rewrite Hr in H. destruct H as (amt & cs & _ & _ & Hch & _).
  rewrite <- (input_rates_fst r rate amt) in Hx.
  apply list_elem_of_fmap in Hx. destruct Hx as ([x' rt] & -> & Hin).
  destruct (for_each_Ok_elem _ _ _ _ Hch Hin) as (child & Hc).
  exists rt, child. exact Hc.
Qed.

Section AncestorPath.

Variable self : Planner.t.
Variable dt : Tier.
Variable ov : option (gmap string Tier).

Local Abbreviation solve fuel item rate path :=
  (Planner._solve fuel self item rate dt ov path).

(** With usable output amounts, the only error is the cycle error. *)
Lemma solve_raises_cycle_only :
  outputs_ok self ->
  forall (fuel : nat) (item : string) (rate : Q) (path : list string)
         (e : Exception),
    solve fuel item rate path = Raise e -> exists c, e = CycleDetected c.
Proof.
  intros Hok. induction fuel as [|fuel IH]; intros item rate path e H;
    [discriminate|].
  apply solve_Raise_inv in H.
  destruct H as [[_ ->]|(_ & r & Hr & [H|[H|H]])]; [eauto| | |].
  - destruct (Hok _ _ Hr) as (amt & Ha & _). congruence.
  - destruct H as (amt & Ha & Hz & _).
    destruct (Hok _ _ Hr) as (amt' & Ha' & Hnz). congruence.
  - destruct H as (amt & x & rt & _ & _ & Hx). eapply IH, Hx.
Qed.

Lemma chain_cons (a b : string) (l : list string) :
  head l = Some b -> consumes self a b -> chain self l -> chain self (a :: l).
Proof.
  destruct l as [|b' l]; [discriminate|]. intros [= ->] Hab Hl.
  split; assumption.
Qed.

(** The list a cycle error carries: the ancestor path, then the items
    entered from [item] on, each consumed by the one before, up to an item
    that is already in the list. *)
Lemma cycle_error_shape :
  forall (fuel : nat) (item : string) (rate : Q) (path c : list string),
    solve fuel item rate path = Raise (CycleDetected c) ->
    exists l x, c = path ++ l ++ [x]
                /\ head (l ++ [x]) = Some item
                /\ chain self (l ++ [x])
                /\ x ∈ path ++ l.
Proof.
  induction fuel as [|fuel IH]; intros item rate path c H; [discriminate|].
  apply solve_Raise_inv in H.
  destruct H as [[Hin [= ->]]|(_ & r & Hr & [H|[H|H]])].
  - exists [], item. cbn. rewrite app_nil_r. repeat split; trivial.
  - unfold Planner._primary_output_amount in H.
    destruct (dict_get _ _); [discriminate|].
    destruct (Recipe.outputs r) as [|[? ?] ?]; discriminate.
  - destruct H as (_ & _ & _ & [=]).
  - destruct H as (amt & x' & rt & _ & Hx' & Hraise).
    destruct (IH _ _ _ _ Hraise) as (l & x & -> & Hhd & Hch & Hx).
    exists (item :: l), x. rewrite <- !app_assoc. cbn [app head].
    split; [reflexivity|]. split; [reflexivity|]. split.
    + apply (chain_cons item x'); [exact Hhd| |exact Hch].
      exists r. split; assumption.
    + rewrite <- app_assoc in Hx. exact Hx.
Qed.

(** Along a chain, the first item reaches the last. *)
Lemma chain_rtc (l : list string) (a b : string) :
  chain self l -> head l = Some a -> last l = Some b ->
  rtc (consumes self) a b.
Proof.
  revert a. induction l as [|a' l IH]; intros a Hch Hhd Hl; [discriminate|].
  injection Hhd as ->. destruct l as [|b' l].
  - injection Hl as ->. constructor.
  - destruct Hch as [Hab Hch]. eapply rtc_l; [exact Hab|].
    apply IH; trivial.
Qed.

Lemma chain_app_r (l1 l2 : list string) :
  chain self (l1 ++ l2) -> chain self l2.
Proof.
  induction l1 as [|a l1 IH]; intros H; [exact H|]. apply IH.
  cbn [app] in H. destruct (l1 ++ l2); [exact I | exact (proj2 H)].
Qed.

(** An offending path exhibits an item that consumes itself and that the
    first item needs. *)
Lemma offending_path_cycle (item : string) (c : list string) :
  offending_path self item c ->
  exists x, rtc (consumes self) item x /\ tc (consumes self) x x.
Proof.
  intros (l & x & -> & Hhd & Hch & Hx). exists x.
  apply list_elem_of_split in Hx. destruct Hx as (l1 & l2 & ->).
  split.
  - apply (chain_rtc ((l1 ++ x :: l2) ++ [x])); [exact Hch|exact Hhd|].
    apply last_snoc.
  - rewrite <- app_assoc in Hch. apply chain_app_r in Hch.
    cbn [app] in Hch.
    assert (Hne : exists y l', l2 ++ [x] = y :: l').
    { destruct l2; cbn; eauto. }
    destruct Hne as (y & l' & E). rewrite E in Hch. destruct Hch as [Hxy Hch].
    assert (Hr : rtc (consumes self) y x).
    { apply (chain_rtc (y :: l')); [exact Hch|reflexivity|].
      rewrite <- E. apply last_snoc. }
    apply rtc_tc in Hr. destruct Hr as [->|Hr];
      [apply tc_once, Hxy | eapply tc_l; eassumption].
Qed.

(** No item needed by a resolved item is on the path above it. *)
Lemma solve_Ok_off_path :
  forall (fuel : nat) (item : string) (rate : Q) (path : list string)
         (root : PlanNode.t),
    solve fuel item rate path = Ok root ->
    forall w, rtc (consumes self) item w -> w ∉ path.
Proof.
  induction fuel as [|fuel IH]; intros item rate path root H w Hw;
    [discriminate|].
  apply rtc_inv in Hw. destruct Hw as [<-|(y & Hy & Hw)].
  - apply solve_Ok_inv in H. exact (proj1 H).
  - destruct (solve_Ok_child _ _ _ _ _ _ _ _ _ H Hy) as (rt & child & Hc).
    intros Hin. apply (IH _ _ _ _ Hc w Hw). apply elem_of_app. left. exact Hin.
Qed.

(** A resolved item does not consume itself, directly or transitively. *)
Lemma solve_Ok_no_self (fuel : nat) (item : string) (rate : Q)
    (path : list string) (root : PlanNode.t) :
  solve fuel item rate path = Ok root -> ~ tc (consumes self) item item.
Proof.
  intros H Hc. destruct fuel as [|fuel]; [discriminate|].
  assert (Hy : exists y, consumes self item y /\ rtc (consumes self) y item).
  { inversion Hc as [? ? Hxy|? y ? Hxy Hyz]; subst.
    - exists item. split; [exact Hxy | constructor].
    - exists y. split; [exact Hxy | apply tc_rtc, Hyz]. }
  destruct Hy as (y & Hy & Hback).
  destruct (solve_Ok_child _ _ _ _ _ _ _ _ _ H Hy) as (rt & child & Hch).
  apply (solve_Ok_off_path _ _ _ _ _ Hch item Hback).
  apply elem_of_app. right. left.
Qed.

(** Every item needed by a resolved item was itself resolved. *)
Lemma solve_Ok_below (item w : string) :
  rtc (consumes self) item w ->
  forall (fuel : nat) (rate : Q) (path : list string) (root : PlanNode.t),
    solve fuel item rate path = Ok root ->
    exists fuel' rate' path' root', solve fuel' w rate' path' = Ok root'.
Proof.
  induction 1 as [x|x y z Hxy _ IH]; intros fuel rate path root H; [eauto|].
  destruct fuel as [|fuel]; [discriminate|].
  destruct (solve_Ok_child _ _ _ _ _ _ _ _ _ H Hxy) as (rt & child & Hch).
  exact (IH _ _ _ _ Hch).
Qed.

End AncestorPath.

(** [plan.py] reports a cycle exactly when there is one among the items
    the target needs.  On a catalog whose active recipes have usable output
    amounts, [_solve] from the empty path

    - raises the cycle error if and only if some item that the target
      needs (the target included) consumes itself, directly or
      transitively, and the list the error carries is an offending path
      from the target;
    - returns a node whenever no such item exists, however often an item
      occurs in sibling branches. *)
Theorem cycle_error_iff_cycle (self : Planner.t) (item : string) (rate : Q)
    (dt : Tier) (ov : option (gmap string Tier)) :
  outputs_ok self ->
  let result :=
    Planner._solve (Planner.depth_bound self) self item rate dt ov [] in
  ((exists c, result = Raise (CycleDetected c))
   <-> exists x, rtc (consumes self) item x /\ tc (consumes self) x x)
  /\ (forall c, result = Raise (CycleDetected c) -> offending_path self item c)
  /\ (tc (consumes self) item item -> exists c, result = Raise (CycleDetected c))
  /\ (acyclic_below self item -> exists root, result = Ok root).
Proof.
  intros Hok result.
  assert (Hshape : forall c, result = Raise (CycleDetected c) ->
                             offending_path self item c).
  { intros c Hc. apply cycle_error_shape in Hc.
    destruct Hc as (l & x & -> & Hhd & Hch & Hx). cbn [app] in *.
    exists l, x. repeat split; assumption. }
  assert (Hcyc : (exists x, rtc (consumes self) item x
                            /\ tc (consumes self) x x) ->
                 exists c, result = Raise (CycleDetected c)).
  { intros (x & Hreach & Hloop).
    destruct result as [root|e|] eqn:E.
    - exfalso.
      destruct (solve_Ok_below _ _ _ _ _ Hreach _ _ _ _ E)
        as (fuel' & rate' & path' & root' & Hx).
      exact (solve_Ok_no_self _ _ _ _ _ _ _ _ Hx Hloop).
    - destruct (solve_raises_cycle_only self dt ov Hok _ _ _ _ _ E) as (c & ->).
      eauto.
    - exfalso. exact (solve_total self item rate dt ov E). }
  split; [split; [|exact Hcyc]|split; [exact Hshape|split]].
  - intros (c & Hc). exact (offending_path_cycle _ _ _ (Hshape c Hc)).
  - intros Hloop. apply Hcyc. exists item. split; [constructor | exact Hloop].
  - intros Hacyc. destruct result as [root|e|] eqn:E; [eauto| |].
    + exfalso.
      destruct (solve_raises_cycle_only self dt ov Hok _ _ _ _ _ E) as (c & ->).
      destruct (offending_path_cycle _ _ _ (Hshape c eq_refl)) as (x & Hx & Hl).
      exact (Hacyc x Hx Hl).
    + exfalso. exact (solve_total self item rate dt ov E).
Qed.

(** The gear catalog with the rod made of a gear: the error names the path
    from [gear] back to [gear]. *)
Example loop_reported :
  Planner._solve (Planner.depth_bound loop_planner) loop_planner "gear" 1 LV
    None []
  = Raise (CycleDetected ["gear"; "rod"; "gear"])
  /\ Planner.error_message (CycleDetected ["gear"; "rod"; "gear"])
     = "Cycle detected: gear -> rod -> gear".
Proof. vm_compute. split; reflexivity. Qed.

(** The acyclic gear catalog: [ingot] and [ore] occur under the plate and
    under the rod, and the tree is returned. *)
Example siblings_share_items :
  match Planner._solve (Planner.depth_bound gear_planner) gear_planner
          "gear" 1 LV None [] with
  | Ok root =>
      map PlanNode.item (PlanNode.nodes root)
      = ["gear"; "plate"; "ingot"; "ore"; "rod"; "ingot"; "ore"]
  | Raise _ | OutOfFuel => False
  end.
Proof. vm_compute. reflexivity. Qed.

Lemma simple_recipe_output (id machine : string) (inputs : list (string * Q))
    (item : string) :
  Planner._primary_output_amount (simple_recipe id machine inputs) item
  = Ok 1%Q.
Proof.
  unfold Planner._primary_output_amount. cbn.
  destruct (decide (id = item)); reflexivity.
Qed.

Lemma outputs_ok_loop_planner : outputs_ok loop_planner.
Proof.
  intros item r Hr. unfold RecipeBook.get_active_recipe in Hr.
  destruct (_ !! item) as [rid|]; [|discriminate].
  destruct (decide (rid = "")); [discriminate|].
  apply find_some in Hr. destruct Hr as [Hin _].
  exists 1%Q. split; [|discriminate].
  cbn in Hin.
  destruct Hin as [<-|[<-|[<-|[<-|[]]]]]; apply simple_recipe_output.
Qed.

Lemma gear_consumes_itself : tc (consumes loop_planner) "gear" "gear".
Proof.
  apply tc_l with "rod"; [|apply tc_once].
  - exists (simple_recipe "gear" "assembler" [("plate", 1%Q); ("rod", 1%Q)]).
    split; [vm_compute; reflexivity|]. right. left.
  - exists (simple_recipe "rod" "lathe" [("gear", 1%Q)]).
    split; [vm_compute; reflexivity|]. left.
Qed.

(** The catalog with the loop has usable output amounts and [gear]
    consumes itself, so the cycle error is raised. *)
Lemma cycle_error_iff_cycle_witness :
  outputs_ok loop_planner /\ tc (consumes loop_planner) "gear" "gear"
  /\ exists c, Planner._solve (Planner.depth_bound loop_planner) loop_planner
                 "gear" 1 LV None [] = Raise (CycleDetected c).
Proof.
  split; [exact outputs_ok_loop_planner|].
  split; [exact gear_consumes_itself|].
  destruct (cycle_error_iff_cycle loop_planner "gear" 1 LV None
              outputs_ok_loop_planner) as (_ & _ & H & _).
  exact (H gear_consumes_itself).
Defined.

(* ===================================================================== *)
(** ** The planner facade *)
(* ===================================================================== *)

(** [build_plan] returns a plan or raises; the plan holds the tree of the
    target and the summary of that tree. *)
Lemma build_plan_result (self : Planner.t) (now : Q) (item : string)
    (rate : Q) (dt : Tier) (ov : option (gmap string Tier)) :
  Planner.build_plan self now item rate dt ov <> OutOfFuel
  /\ forall plan, Planner.build_plan self now item rate dt ov = Ok plan ->
       Planner._solve (Planner.depth_bound self) self item rate dt ov []
       = Ok (Plan.nodes plan)
       /\ Plan.summary plan = Planner._summary (Plan.nodes plan)
       /\ Plan.target_item plan = item
       /\ Plan.target_rate_per_s plan = rate.
Proof.
  unfold Planner.build_plan.
  pose proof (solve_total self item rate dt ov) as Htot.
  destruct (Planner._solve _ self item rate dt ov []) as [root|e|];
    cbn [bind]; [|split; [discriminate|intros ? [=]]|contradiction].
  split; [discriminate|]. intros plan [= <-]. repeat split.
Qed.

(* ===================================================================== *)
(** ** More on the overclock calculator *)
(* ===================================================================== *)


Lemma floor_log4_mono (x y : Q) :
  (1 <= x)%Q -> (x <= y)%Q -> floor_log4 x <= floor_log4 y.
Proof.
  intros Hx Hxy. apply floor_log4_largest.
  - eapply Qle_trans; eassumption.
  - apply floor_log4_nonneg.
  - eapply Qle_trans; [|exact Hxy]. apply (floor_log4_spec x Hx).
Qed.


Lemma one_le_capacity_ratio (tier : Tier) (p : Q) :
  (0 < p)%Q -> (p <= inject_Z (Oc.VOLTAGE_BY_TIER tier))%Q ->
  (1 <= inject_Z (Oc.VOLTAGE_BY_TIER tier) / p)%Q.
Proof.
  intros Hp Hcap. apply Qle_mult_div; [exact Hp|]. rewrite Qmult_1_r.
  exact Hcap.
Qed.

Lemma factor_ge_1 (p : Q) : (1 <= (if Qle_bool p 16 then 2 else 14 # 5))%Q.
Proof. destruct (Qle_bool p 16); discriminate. Qed.




Lemma Qceiling_le_Z (x : Q) (z : Z) : (x <= inject_Z z)%Q -> Qceiling x <= z.
Proof.
  intros H. rewrite <- (Qceiling_Z z). apply Qceiling_resp_le, H.
Qed.

(** Dividing a non-negative amount by a larger divisor gives less. *)
Lemma Qdiv_le_divisor (a c d : Q) :
  (0 <= a)%Q -> (0 < c)%Q -> (c <= d)%Q -> (a / d <= a / c)%Q.
Proof.
  intros Ha Hc Hcd.
  assert (Hd : (0 < d)%Q) by (eapply Qlt_le_trans; eassumption).
  apply Qle_shift_div_r; [exact Hd|].
  assert (E : (c * (a / c) == a)%Q).
  { apply Qmult_div_r. intros H0. rewrite H0 in Hc. exact (Qlt_irrefl _ Hc). }
  rewrite <- E at 1. rewrite (Qmult_comm (a / c)).
  apply Qmult_le_compat_r; [exact Hcd|].
  apply Qle_shift_div_l; [exact Hc|]. rewrite Qmult_0_l. exact Ha.
Qed.

Lemma base_ticks_nonneg (t : Q) :
  (0 <= inject_Z (Z.max 1 (Qceiling (t / Oc.TICK_S))))%Q.
Proof. change 0%Q with (inject_Z 0). rewrite <- Zle_Qle. lia. Qed.

(** X2.  On a tier of larger capacity the overclock count is not smaller
    and the duration in ticks is not longer, for a base power that fits
    the smaller tier. *)
Theorem larger_tier_not_slower (t1 t2 : Tier) (time p : Q) :
  Oc.VOLTAGE_BY_TIER t1 <= Oc.VOLTAGE_BY_TIER t2 ->
  (0 < p)%Q -> (p <= inject_Z (Oc.VOLTAGE_BY_TIER t1))%Q ->
  Oc.overclocks (Oc.compute_overclock time p t1)
  <= Oc.overclocks (Oc.compute_overclock time p t2)
  /\ Oc.ticks (Oc.compute_overclock time p t2)
     <= Oc.ticks (Oc.compute_overclock time p t1)
  /\ (Oc.seconds (Oc.compute_overclock time p t2)
      <= Oc.seconds (Oc.compute_overclock time p t1))%Q.
Proof.
  intros Hle Hp Hcap.
  assert (Hcap2 : (p <= inject_Z (Oc.VOLTAGE_BY_TIER t2))%Q).
  { eapply Qle_trans; [exact Hcap|]. rewrite <- Zle_Qle. exact Hle. }
  rewrite (compute_overclock_in_range time p t1 Hp Hcap).
  rewrite (compute_overclock_in_range time p t2 Hp Hcap2).
  cbn [Oc.overclocks Oc.ticks Oc.seconds].
  set (n1 := floor_log4 (inject_Z (Oc.VOLTAGE_BY_TIER t1) / p)).
  set (n2 := floor_log4 (inject_Z (Oc.VOLTAGE_BY_TIER t2) / p)).
  assert (Hn : n1 <= n2).
  { apply floor_log4_mono; [apply one_le_capacity_ratio; assumption|].
    unfold Qdiv. apply Qmult_le_compat_r;
      [rewrite <- Zle_Qle; exact Hle | apply Qinv_le_0_compat, Qlt_le_weak, Hp]. }
  assert (Hn1 : 0 <= n1) by apply floor_log4_nonneg.
  assert (Hn2 : 0 <= n2) by apply floor_log4_nonneg.
  rewrite !Qpower_if_pos by assumption.
  set (f := (if Qle_bool p 16 then 2 else 14 # 5)%Q).
  assert (Hticks :
    Z.max 1 (Qceiling (inject_Z (Z.max 1 (Qceiling (time / Oc.TICK_S))) / f ^ n2))
    <= Z.max 1 (Qceiling (inject_Z (Z.max 1 (Qceiling (time / Oc.TICK_S))) / f ^ n1))).
  { apply Z.max_le_compat_l, Qceiling_resp_le, Qdiv_le_divisor.
    - apply base_ticks_nonneg.
    - eapply Qlt_le_trans; [|apply Qpower_1_le; [apply factor_ge_1|exact Hn1]].
      reflexivity.
    - apply Qpower_le_compat_l; [exact Hn | apply factor_ge_1]. }
  split; [exact Hn|]. split; [exact Hticks|].
  apply Qmult_le_compat_r; [|discriminate]. rewrite <- Zle_Qle. exact Hticks.
Qed.

Lemma larger_tier_not_slower_witness :
  Oc.VOLTAGE_BY_TIER LV <= Oc.VOLTAGE_BY_TIER IV
  /\ (0 < 30)%Q /\ (30 <= inject_Z (Oc.VOLTAGE_BY_TIER LV))%Q
  /\ Oc.ticks (Oc.compute_overclock 2 30 IV)
     <= Oc.ticks (Oc.compute_overclock 2 30 LV).
Proof.
  split; [discriminate|]. split; [reflexivity|]. split; [discriminate|].
  apply (larger_tier_not_slower LV IV 2 30);
    [discriminate | reflexivity | discriminate].
Defined.

(** X3.  Whatever the base power and the tier, the duration in ticks is at
    least one tick and never above the base duration rounded up to whole
    ticks: overclocking does not lengthen a recipe. *)
Theorem overclock_never_lengthens (time p : Q) (tier : Tier) :
  1 <= Oc.ticks (Oc.compute_overclock time p tier)
       <= Z.max 1 (Qceiling (time / (1 # 20))).
Proof.
  change (1 # 20)%Q with Oc.TICK_S.
  destruct (Qlt_le_dec 0 p) as [Hp|Hp].
  - destruct (Qlt_le_dec (inject_Z (Oc.VOLTAGE_BY_TIER tier)) p) as [Hc|Hc].
    + rewrite (compute_overclock_above time p tier Hc). cbn [Oc.ticks]. lia.
    + rewrite (compute_overclock_in_range time p tier Hp Hc). cbn [Oc.ticks].
      split; [apply Z.le_max_l|]. apply Z.max_lub; [lia|].
      apply Qceiling_le_Z.
      rewrite (Qpower_if_pos _ _ (floor_log4_nonneg _)).
      apply Qle_shift_div_r.
      * eapply Qlt_le_trans;
          [|apply Qpower_1_le; [apply factor_ge_1|apply floor_log4_nonneg]].
        reflexivity.
      * rewrite <- (Qmult_1_r (inject_Z _)) at 1.
        rewrite !(Qmult_comm (inject_Z _)).
        apply Qmult_le_compat_r; [|apply base_ticks_nonneg].
        apply Qpower_1_le; [apply factor_ge_1|apply floor_log4_nonneg].
  - unfold Oc.compute_overclock.
    assert (E : Qle_bool p 0 = true) by (apply Qle_bool_iff, Hp).
    rewrite E. cbn [Oc.ticks]. lia.
Qed.

Lemma ticks_cover_time (time : Q) :
  (1 # 20 < time)%Q ->
  let ticks := Z.max 1 (Qceiling (time / Oc.TICK_S)) in
  (time <= inject_Z ticks * (1 # 20) /\ inject_Z ticks * (1 # 20) < time + (1 # 20))%Q.
Proof.
  intros Ht. cbv zeta. unfold Oc.TICK_S.
  set (x := (time / (1 # 20))%Q).
  assert (Ex : (x * (1 # 20) == time)%Q) by (unfold x; field).
  assert (Hx1 : (1 < x)%Q).
  { unfold x. apply Qlt_shift_div_l; [reflexivity|]. rewrite Qmult_1_l. exact Ht. }
  assert (Hc : 1 <= Qceiling x).
  { apply Qceiling_pos. eapply Qlt_trans; [|exact Hx1]. reflexivity. }
  rewrite (Z.max_r 1 _ Hc). split.
  - rewrite <- Ex. apply Qmult_le_compat_r; [apply Qle_ceiling | discriminate].
  - assert (Hlt : (inject_Z (Qceiling x) < x + 1)%Q).
    { pose proof (Qceiling_lt x) as H. unfold Z.sub in H.
      rewrite inject_Z_plus in H.
      assert (E1 : (inject_Z (Qceiling x)
                    == inject_Z (Qceiling x) + inject_Z (-1) + 1)%Q)
        by (change (inject_Z (-1)) with (- (1))%Q; ring).
      rewrite E1. apply Qplus_lt_l. exact H. }
    assert (E2 : (time + (1 # 20) == (x + 1) * (1 # 20))%Q)
      by (rewrite <- Ex; ring).
    rewrite E2. apply Qmult_lt_compat_r; [reflexivity | exact Hlt].
Qed.

(** X4.  For a positive base power the duration in seconds is the tick
    count times 1/20 s.  For a base power of zero or below, the result has
    no overclock and no power, and its duration in seconds is the base
    duration itself (at least one tick), not a whole number of ticks: it
    is at most the tick count times 1/20 s and less than one tick
    shorter. *)
Theorem seconds_and_ticks (time p : Q) (tier : Tier) :
  let r := Oc.compute_overclock time p tier in
  ((0 < p)%Q -> (Oc.seconds r == inject_Z (Oc.ticks r) * (1 # 20))%Q)
  /\ ((p <= 0)%Q ->
      Oc.overclocks r = 0 /\ Oc.eut r = 0%Q
      /\ Oc.seconds r = py_max (1 # 20) time
      /\ (Oc.seconds r <= inject_Z (Oc.ticks r) * (1 # 20))%Q
      /\ (inject_Z (Oc.ticks r) * (1 # 20) < Oc.seconds r + (1 # 20))%Q).
Proof.
  cbv zeta. split.
  - intros Hp.
    destruct (Qlt_le_dec (inject_Z (Oc.VOLTAGE_BY_TIER tier)) p) as [Hc|Hc].
    + rewrite (compute_overclock_above time p tier Hc). reflexivity.
    + rewrite (compute_overclock_in_range time p tier Hp Hc). reflexivity.
  - intros Hp. unfold Oc.compute_overclock.
    assert (E : Qle_bool p 0 = true) by (apply Qle_bool_iff, Hp).
    rewrite E. cbn [Oc.overclocks Oc.eut Oc.seconds Oc.ticks].
    split; [reflexivity|]. split; [reflexivity|]. split; [reflexivity|].
    unfold Oc.TICK_S.
    destruct (Qlt_le_dec (1 # 20) time) as [Ht|Ht].
    + pose proof (ticks_cover_time time Ht) as H. cbv zeta in H.
      unfold Oc.TICK_S in H. unfold py_max.
      destruct (Qlt_le_dec (1 # 20) time) as [_|Hn];
        [exact H | exfalso; exact (Qlt_not_le _ _ Ht Hn)].
    + rewrite (py_max_l_of_le _ _ Ht).
      assert (Hone : Z.max 1 (Qceiling (time / (1 # 20))) = 1).
      { apply Z.max_l, Qceiling_le_Z.
        apply Qle_shift_div_r; [reflexivity|]. rewrite Qmult_1_l. exact Ht. }
      rewrite Hone. split; [discriminate | reflexivity].
Qed.

Lemma seconds_and_ticks_witness :
  (0 <= 0)%Q
  /\ Oc.ticks (Oc.compute_overclock (7 # 100) 0 LV) = 2
  /\ Oc.seconds (Oc.compute_overclock (7 # 100) 0 LV) = py_max (1 # 20) (7 # 100)
  /\ (py_max (1 # 20) (7 # 100) == 7 # 100)%Q.
Proof.
  split; [discriminate|]. split; [reflexivity|]. split; [|reflexivity].
  destruct (seconds_and_ticks (7 # 100) 0 LV) as [_ H].
  exact (proj1 (proj2 (proj2 (H ltac:(discriminate))))).
Defined.

(* ===================================================================== *)
(** ** More on the plan resolver *)
(* ===================================================================== *)

(** X5.  The recursion of [_solve] from the empty path never goes deeper
    than the number of active outputs plus one: with that depth allowed it
    returns a node or raises, and allowing more depth changes nothing. *)
Theorem solve_depth_bounded (fuel : nat) (self : Planner.t) (item : string)
    (rate : Q) (dt : Tier) (ov : option (gmap string Tier)) :
  (Planner.depth_bound self <= fuel)%nat ->
  Planner._solve fuel self item rate dt ov []
  = Planner._solve (Planner.depth_bound self) self item rate dt ov []
  /\ Planner._solve fuel self item rate dt ov [] <> OutOfFuel.
Proof.
  intros Hle.
  pose proof (solve_total self item rate dt ov) as Htot.
  assert (E : Planner._solve fuel self item rate dt ov []
              = Planner._solve (Planner.depth_bound self) self item rate dt ov []).
  { eapply solve_fuel_mono; [exact Hle | reflexivity | exact Htot]. }
  split; [exact E | rewrite E; exact Htot].
Qed.

Lemma solve_depth_bounded_witness :
  (Planner.depth_bound gear_planner <= 100)%nat
  /\ Planner._solve 100 gear_planner "gear" 1 LV None []
     = Planner._solve (Planner.depth_bound gear_planner) gear_planner "gear" 1
         LV None [].
Proof.
  assert (H : (Planner.depth_bound gear_planner <= 100)%nat)
    by (vm_compute; lia).
  split; [exact H|].
  exact (proj1 (solve_depth_bounded 100 gear_planner "gear" 1 LV None H)).
Defined.

Lemma branches_unfold (n : PlanNode.t) :
  PlanNode.branches n
  = match flat_map PlanNode.branches (PlanNode.children n) with
    | [] => [[PlanNode.item n]]
    | bs => map (cons (PlanNode.item n)) bs
    end.
Proof. destruct n; reflexivity. Qed.

(** Along every chain from a returned node to a leaf, the items are
    distinct from each other and from the path above; the chain starts at
    the item asked for and is no longer than the depth allowed. *)
Lemma solve_branches (self : Planner.t) (dt : Tier)
    (ov : option (gmap string Tier)) :
  forall (fuel : nat) (item : string) (rate : Q) (path : list string)
         (root : PlanNode.t),
    NoDup path ->
    Planner._solve fuel self item rate dt ov path = Ok root ->
    forall b, b ∈ PlanNode.branches root ->
      NoDup (path ++ b) /\ head b = Some item /\ (length b <= fuel)%nat.
Proof.
  induction fuel as [|fuel IH]; intros item rate path root Hnd H b Hb;
    [discriminate|].
  pose proof (solve_Ok_inv _ _ _ _ _ _ _ _ H) as [Hin Hinv].
  assert (Hleaf : NoDup (path ++ [item])).
  { apply NoDup_app. split; [exact Hnd|]. split; [|apply NoDup_singleton].
    intros x Hx Hx'. apply list_elem_of_singleton in Hx'. subst x.
    contradiction. }
  destruct (RecipeBook.get_active_recipe (Planner.book self) item) as [r|].
  - destruct Hinv as (amt & cs & _ & _ & Hch & Hroot). cbv zeta in Hroot.
    assert (Hkids : forall c, c ∈ cs -> forall b', b' ∈ PlanNode.branches c ->
              NoDup ((path ++ [item]) ++ b') /\ (length b' <= fuel)%nat).
    { apply for_each_Ok in Hch. clear Hroot.
      induction Hch as [|[it rt] c l cs' Hc _ IHl]; intros c' Hc';
        [inversion Hc'|].
      apply elem_of_cons in Hc'. destruct Hc' as [->|Hc']; [|exact (IHl c' Hc')].
      intros b' Hb'. destruct (IH _ _ _ _ Hleaf Hc b' Hb') as (H1 & _ & H3).
      split; assumption. }
    rewrite branches_unfold in Hb. subst root.
    cbn [PlanNode.children PlanNode.item] in Hb.
    destruct (flat_map PlanNode.branches cs) as [|b0 bs] eqn:Ebs.
    + apply list_elem_of_singleton in Hb. subst b.
      split; [exact Hleaf|]. split; [reflexivity | simpl; lia].
    + rewrite <- Ebs in Hb. apply list_elem_of_fmap in Hb.
      destruct Hb as (b' & -> & Hb').
      apply list_elem_of_In, in_flat_map in Hb'.
      destruct Hb' as (c & Hc & Hb').
      apply (proj2 (list_elem_of_In _ _)) in Hc.
      apply (proj2 (list_elem_of_In _ _)) in Hb'.
      destruct (Hkids c Hc b' Hb') as [H1 H2].
      rewrite <- app_assoc in H1. split; [exact H1|].
      split; [reflexivity | simpl; lia].
  - subst root. cbn in Hb. apply list_elem_of_singleton in Hb. subst b.
    split; [exact Hleaf|]. split; [reflexivity | simpl; lia].
Qed.

(** X6.  In a tree returned by [_solve] from the empty path, no item
    occurs twice on a chain from the root to a leaf; each chain starts at
    the target and has at most as many items as there are active outputs,
    plus one. *)
Theorem branches_distinct (self : Planner.t) (item : string) (rate : Q)
    (dt : Tier) (ov : option (gmap string Tier)) (root : PlanNode.t)
    (b : list string) :
  Planner._solve (Planner.depth_bound self) self item rate dt ov [] = Ok root ->
  b ∈ PlanNode.branches root ->
  NoDup b /\ head b = Some item
  /\ (length b <= S (size (RecipeBook.active_by_output (Planner.book self))))%nat.
Proof.
  intros H Hb.
  exact (solve_branches self dt ov _ _ _ _ _ (NoDup_nil_2) H b Hb).
Qed.

Lemma solve_gear_tree :
  Planner._solve (Planner.depth_bound gear_planner) gear_planner "gear" 1 LV
    None [] = Ok gear_tree.
Proof. vm_compute. reflexivity. Qed.

Lemma branches_distinct_witness :
  Planner._solve (Planner.depth_bound gear_planner) gear_planner "gear" 1 LV
    None [] = Ok gear_tree
  /\ ["gear"; "rod"; "ingot"; "ore"] ∈ PlanNode.branches gear_tree
  /\ NoDup ["gear"; "rod"; "ingot"; "ore"].
Proof.
  assert (H1 : Planner._solve (Planner.depth_bound gear_planner) gear_planner
                 "gear" 1 LV None [] = Ok gear_tree)
    by (vm_compute; reflexivity).
  assert (H2 : ["gear"; "rod"; "ingot"; "ore"] ∈ PlanNode.branches gear_tree)
    by (right; left).
  split; [exact H1|]. split; [exact H2|].
  exact (proj1 (branches_distinct gear_planner "gear" 1 LV None gear_tree _
                  H1 H2)).
Defined.

Lemma Forall2_pairs (cs : list PlanNode.t) (irs : list (string * Q)) :
  Forall2 (fun c (ir : string * Q) =>
             PlanNode.item c = fst ir /\ PlanNode.item_rate_per_s c = snd ir)
          cs irs ->
  map (fun c => (PlanNode.item c, PlanNode.item_rate_per_s c)) cs = irs.
Proof.
  induction 1 as [|c [k q] cs irs [H1 H2] _ IH]; [reflexivity|].
  cbn in *. rewrite H1, H2, IH. reflexivity.
Qed.

(** X7.  In a returned tree, a node whose item has an active recipe has
    one child per input of the recipe, in the order of the recipe; the
    child of an input is the node of that item, asked for at the rate
    (rate of the node / output amount) * input amount, and [inputs] lists
    the same pairs.  A node whose item has no active recipe has no
    children and no inputs. *)
Theorem children_follow_inputs (fuel : nat) (self : Planner.t)
    (item : string) (rate : Q) (dt : Tier) (ov : option (gmap string Tier))
    (path : list string) (root nd : PlanNode.t) :
  Planner._solve fuel self item rate dt ov path = Ok root ->
  nd ∈ PlanNode.nodes root ->
  match RecipeBook.get_active_recipe (Planner.book self) (PlanNode.item nd) with
  | None => PlanNode.children nd = [] /\ PlanNode.inputs nd = []
  | Some r =>
      exists out_amt : Q,
        Planner._primary_output_amount r (PlanNode.item nd) = Ok out_amt
        /\ map PlanNode.item (PlanNode.children nd) = map fst (Recipe.inputs r)
        /\ map (fun c => (PlanNode.item c, PlanNode.item_rate_per_s c))
               (PlanNode.children nd)
           = map (fun '(in_item, in_amt) =>
                    (in_item,
                     (PlanNode.item_rate_per_s nd / out_amt * in_amt)%Q))
                 (Recipe.inputs r)
        /\ PlanNode.inputs nd
           = map (fun c => (PlanNode.item c, PlanNode.item_rate_per_s c))
                 (PlanNode.children nd)
  end.
Proof.
  intros Hsolve Hnd.
  pose proof (node_resolved _ _ _ _ _ _ _ _ _ Hsolve Hnd) as Hall.
  unfold resolved in Hall.
  destruct (RecipeBook.get_active_recipe _ _) as [r|].
  - destruct Hall as (amt & Hout & _ & _ & _ & _ & _ & _ & _ & Hin & Hkids).
    apply Forall2_pairs in Hkids. exists amt. split; [exact Hout|].
    assert (Hitems : map PlanNode.item (PlanNode.children nd)
                     = map fst (PlanNode.inputs nd)).
    { rewrite <- Hkids, map_map. reflexivity. }
    split; [|split].
    + rewrite Hitems, Hin. apply (input_rates_fst r _ amt).
    + rewrite Hkids. exact Hin.
    + symmetry. exact Hkids.
  - rewrite Hall. split; reflexivity.
Qed.

Lemma children_follow_inputs_witness :
  Planner._solve (Planner.depth_bound gear_planner) gear_planner "gear" 1 LV
    None [] = Ok gear_tree
  /\ gear_tree ∈ PlanNode.nodes gear_tree
  /\ exists out_amt : Q,
       Planner._primary_output_amount
         (simple_recipe "gear" "assembler" [("plate", 1%Q); ("rod", 1%Q)])
         "gear" = Ok out_amt
       /\ map PlanNode.item (PlanNode.children gear_tree) = ["plate"; "rod"].
Proof.
  assert (H1 : Planner._solve (Planner.depth_bound gear_planner) gear_planner
                 "gear" 1 LV None [] = Ok gear_tree)
    by (vm_compute; reflexivity).
  assert (H2 : gear_tree ∈ PlanNode.nodes gear_tree) by left.
  split; [exact H1|]. split; [exact H2|].
  pose proof (children_follow_inputs _ _ _ _ _ _ _ _ _ H1 H2) as H.
  destruct H as (amt & Ha & Hi & _). exists amt. split; [exact Ha | exact Hi].
Defined.



(* ===================================================================== *)
(** ** More on the summary *)
(* ===================================================================== *)






(* ===================================================================== *)
(** ** The recipe book of [models.py] *)
(* ===================================================================== *)

Lemma find_app_first {A : Type} (p : A -> bool) (l1 l2 : list A) :
  List.find p (l1 ++ l2)
  = match List.find p l1 with
    | Some x => Some x
    | None => List.find p l2
    end.
Proof.
  induction l1 as [|a l1 IH]; [reflexivity|]. cbn [app List.find].
  destruct (p a); [reflexivity | exact IH].
Qed.

Lemma find_no_match {A : Type} (p : A -> bool) (l : list A) :
  (forall x, x ∈ l -> p x = false) -> List.find p l = None.
Proof.
  induction l as [|a l IH]; intros H; [reflexivity|]. cbn [List.find].
  rewrite (H a) by left. apply IH. intros x Hx. apply H. right. exact Hx.
Qed.

(** The loop of [upsert_recipe]: either no recipe has the id, or the first
    recipe with the id is replaced and the stale mappings of that recipe
    are dropped. *)
Lemma replace_first_spec (recipe : Recipe.t) (abo : gmap string string)
    (l : list Recipe.t) :
  match RecipeBook.replace_first recipe l abo with
  | None => forall r, r ∈ l -> Recipe.id r <> Recipe.id recipe
  | Some (l', abo') =>
      exists l1 old l2,
        l = l1 ++ old :: l2
        /\ (forall r, r ∈ l1 -> Recipe.id r <> Recipe.id recipe)
        /\ Recipe.id old = Recipe.id recipe
        /\ l' = l1 ++ recipe :: l2
        /\ abo' = RecipeBook.drop_stale old recipe abo
  end.
Proof.
  induction l as [|r l IH]; cbn [RecipeBook.replace_first].
  - intros r Hr. inversion Hr.
  - destruct (bool_decide (Recipe.id r = Recipe.id recipe)) eqn:E.
    + apply bool_decide_eq_true in E. exists [], r, l.
      repeat split; [|exact E]. intros r' Hr'. inversion Hr'.
    + apply bool_decide_eq_false in E.
      destruct (RecipeBook.replace_first recipe l abo) as [[l' abo']|].
      * destruct IH as (l1 & old & l2 & -> & H1 & H2 & -> & ->).
        exists (r :: l1), old, l2. repeat split; [|exact H2].
        intros r' Hr'. apply elem_of_cons in Hr'.
        destruct Hr' as [->|Hr']; [exact E | exact (H1 r' Hr')].
      * intros r' Hr'. apply elem_of_cons in Hr'.
        destruct Hr' as [->|Hr']; [exact E | exact (IH r' Hr')].
Qed.

Lemma find_id_skip (rid : string) (l1 l2 : list Recipe.t) (x : Recipe.t) :
  Recipe.id x <> rid ->
  List.find (fun r => bool_decide (Recipe.id r = rid)) (l1 ++ x :: l2)
  = List.find (fun r => bool_decide (Recipe.id r = rid)) (l1 ++ l2).
Proof.
  intros Hx. rewrite !find_app_first. cbn [List.find].
  rewrite (bool_decide_eq_false_2 _ Hx). reflexivity.
Qed.

Lemma find_id_first (l1 l2 : list Recipe.t) (x : Recipe.t) :
  (forall r, r ∈ l1 -> Recipe.id r <> Recipe.id x) ->
  List.find (fun r => bool_decide (Recipe.id r = Recipe.id x)) (l1 ++ x :: l2)
  = Some x.
Proof.
  intros H. rewrite find_app_first, find_no_match.
  - cbn [List.find]. rewrite bool_decide_eq_true_2; reflexivity.
  - intros r Hr. apply bool_decide_eq_false_2, H, Hr.
Qed.

(** X10.  After [upsert_recipe], [get_recipe] returns the new recipe under
    its id and what it returned before under every other id; the list of
    recipes keeps its length when the id was in use and grows by one
    otherwise. *)
Theorem upsert_get_recipe (self : RecipeBook.t) (recipe : Recipe.t)
    (make_active : bool) :
  let book := RecipeBook.upsert_recipe self recipe make_active in
  RecipeBook.get_recipe book (Recipe.id recipe) = Some recipe
  /\ (forall rid, rid <> Recipe.id recipe ->
        RecipeBook.get_recipe book rid = RecipeBook.get_recipe self rid)
  /\ length (RecipeBook.recipes book)
     = match RecipeBook.get_recipe self (Recipe.id recipe) with
       | Some _ => length (RecipeBook.recipes self)
       | None => S (length (RecipeBook.recipes self))
       end.
Proof.
  cbv zeta. unfold RecipeBook.upsert_recipe, RecipeBook.get_recipe.
  pose proof (replace_first_spec recipe (RecipeBook.active_by_output self)
                (RecipeBook.recipes self)) as H.
  destruct (RecipeBook.replace_first recipe _ _) as [[l' abo']|];
    cbn [RecipeBook.recipes].
  - destruct H as (l1 & old & l2 & E & H1 & H2 & -> & _). rewrite E.
    split; [apply find_id_first, H1|]. split.
    + intros rid Hrid. rewrite !find_id_skip; congruence.
    + assert (Hf : List.find
                     (fun r => bool_decide (Recipe.id r = Recipe.id recipe))
                     (l1 ++ old :: l2) = Some old).
      { rewrite <- H2. apply find_id_first. rewrite H2. exact H1. }
      rewrite Hf, !length_app. reflexivity.
  - split; [|split].
    + rewrite find_app_first, find_no_match.
      * cbn [List.find]. rewrite bool_decide_eq_true_2; reflexivity.
      * intros r Hr. apply bool_decide_eq_false_2, H, Hr.
    + intros rid Hrid. rewrite find_app_first. cbn [List.find].
      rewrite bool_decide_eq_false_2 by congruence.
      destruct (List.find _ _); reflexivity.
    + rewrite find_no_match.
      * rewrite length_app. cbn. lia.
      * intros r Hr. apply bool_decide_eq_false_2, H, Hr.
Qed.

(** What the activation loop leaves under a key. *)
Lemma activate_lookup (recipe : Recipe.t) (abo : gmap string string)
    (k : string) :
  RecipeBook.activate recipe abo !! k
  = if bool_decide (k ∈ map fst (Recipe.outputs recipe))
    then Some (Recipe.id recipe) else abo !! k.
Proof.
  unfold RecipeBook.activate. revert abo.
  induction (map fst (Recipe.outputs recipe)) as [|out outs IH]; intros abo.
  - reflexivity.
  - cbn [fold_left]. rewrite IH.
    destruct (decide (k ∈ outs)) as [Hin|Hin].
    + rewrite !bool_decide_eq_true_2; [reflexivity | right; exact Hin | exact Hin].
    + rewrite (bool_decide_eq_false_2 _ Hin).
      destruct (decide (k = out)) as [->|Hne].
      * rewrite lookup_insert_eq, bool_decide_eq_true_2; [reflexivity | left].
      * rewrite lookup_insert_ne by congruence.
        rewrite bool_decide_eq_false_2; [reflexivity|].
        intros H. apply elem_of_cons in H. destruct H; contradiction.
Qed.

(** What the stale-mapping loop leaves under a key. *)
Lemma drop_stale_lookup (old recipe : Recipe.t) (abo : gmap string string)
    (k : string) :
  RecipeBook.drop_stale old recipe abo !! k
  = if bool_decide (k ∈ map fst (Recipe.outputs old))
       && bool_decide (abo !! k = Some (Recipe.id old))
       && negb (bool_decide (k ∈ map fst (Recipe.outputs recipe)))
    then None else abo !! k.
Proof.
  unfold RecipeBook.drop_stale. revert abo.
  induction (map fst (Recipe.outputs old)) as [|out outs IH]; intros abo.
  - reflexivity.
  - cbn [fold_left]. rewrite IH. clear IH.
    destruct (decide (k = out)) as [->|Hne].
    + rewrite (bool_decide_eq_true_2 (out ∈ out :: outs)) by left.
      cbn [andb].
      destruct (bool_decide (abo !! out = Some (Recipe.id old))) eqn:Eb;
        destruct (bool_decide (out ∈ map fst (Recipe.outputs recipe))) eqn:Ec;
        cbn [andb negb]; rewrite ?Eb, ?andb_false_r; cbn [andb negb];
        try reflexivity.
      rewrite lookup_delete_eq.
      rewrite (bool_decide_eq_false_2 (None = Some _)) by discriminate.
      rewrite andb_false_r. reflexivity.
    + assert (Hk : forall b : bool,
                (if b then delete out abo else abo) !! k = abo !! k).
      { intros [|]; [apply lookup_delete_ne; congruence | reflexivity]. }
      rewrite Hk.
      assert (Hin : bool_decide (k ∈ out :: outs) = bool_decide (k ∈ outs)).
      { apply bool_decide_ext. rewrite elem_of_cons. split; [|auto].
        intros [H|H]; [contradiction | exact H]. }
      rewrite Hin. reflexivity.
Qed.

Lemma upsert_get_recipe_witness :
  "gear" <> Recipe.id rod_and_bolt
  /\ RecipeBook.get_recipe (RecipeBook.upsert_recipe gear_book rod_and_bolt true)
       "rod" = Some rod_and_bolt
  /\ RecipeBook.get_recipe (RecipeBook.upsert_recipe gear_book rod_and_bolt true)
       "gear" = RecipeBook.get_recipe gear_book "gear".
Proof.
  assert (H : "gear" <> Recipe.id rod_and_bolt) by discriminate.
  split; [exact H|].
  destruct (upsert_get_recipe gear_book rod_and_bolt true) as (H1 & H2 & _).
  split; [exact H1 | exact (H2 "gear" H)].
Defined.

(** The new recipe is the first one with its id in the updated book. *)
Lemma upsert_find_new (self : RecipeBook.t) (recipe : Recipe.t)
    (make_active : bool) :
  List.find (fun r => bool_decide (Recipe.id r = Recipe.id recipe))
    (RecipeBook.recipes (RecipeBook.upsert_recipe self recipe make_active))
  = Some recipe.
Proof.
  unfold RecipeBook.upsert_recipe.
  pose proof (replace_first_spec recipe (RecipeBook.active_by_output self)
                (RecipeBook.recipes self)) as H.
  destruct (RecipeBook.replace_first recipe _ _) as [[l' abo']|];
    cbn [RecipeBook.recipes].
  - destruct H as (l1 & old & l2 & _ & H1 & _ & -> & _).
    apply find_id_first, H1.
  - rewrite find_app_first, find_no_match.
    + cbn [List.find]. rewrite bool_decide_eq_true_2; reflexivity.
    + intros r Hr. apply bool_decide_eq_false_2, H, Hr.
Qed.

(** The mappings of the updated book, from those of the old one. *)
Lemma upsert_active_lookup (self : RecipeBook.t) (recipe : Recipe.t)
    (make_active : bool) (k : string) :
  RecipeBook.active_by_output
    (RecipeBook.upsert_recipe self recipe make_active) !! k
  = let dropped :=
      match RecipeBook.get_recipe self (Recipe.id recipe) with
      | Some old =>
          RecipeBook.drop_stale old recipe (RecipeBook.active_by_output self)
      | None => RecipeBook.active_by_output self
      end in
    if make_active && bool_decide (k ∈ map fst (Recipe.outputs recipe))
    then Some (Recipe.id recipe) else dropped !! k.
Proof.
  cbv zeta. unfold RecipeBook.upsert_recipe, RecipeBook.get_recipe.
  pose proof (replace_first_spec recipe (RecipeBook.active_by_output self)
                (RecipeBook.recipes self)) as H.
  destruct (RecipeBook.replace_first recipe _ _) as [[l' abo']|];
    cbn [RecipeBook.active_by_output].
  - destruct H as (l1 & old & l2 & E & H1 & H2 & _ & ->). rewrite E.
    assert (Hf : List.find
                   (fun r => bool_decide (Recipe.id r = Recipe.id recipe))
                   (l1 ++ old :: l2) = Some old).
    { rewrite <- H2. apply find_id_first. rewrite H2. exact H1. }
    rewrite Hf. destruct make_active; cbn [andb]; [|reflexivity].
    apply activate_lookup.
  - rewrite find_no_match
      by (intros r Hr; apply bool_decide_eq_false_2, H, Hr).
    destruct make_active; cbn [andb]; [|reflexivity].
    apply activate_lookup.
Qed.

(** X11.  After [upsert_recipe] with [make_active], every output of the
    recipe is mapped to its id, and [get_active_recipe] returns the recipe
    for each of them, unless the id is the empty string: a recipe with
    the empty id is never active. *)
Theorem upsert_activates (self : RecipeBook.t) (recipe : Recipe.t)
    (out : string) :
  out ∈ map fst (Recipe.outputs recipe) ->
  let book := RecipeBook.upsert_recipe self recipe true in
  RecipeBook.active_by_output book !! out = Some (Recipe.id recipe)
  /\ RecipeBook.get_active_recipe book out
     = if decide (Recipe.id recipe = "") then None else Some recipe.
Proof.
  intros Hout. cbv zeta.
  assert (E : RecipeBook.active_by_output
                (RecipeBook.upsert_recipe self recipe true) !! out
              = Some (Recipe.id recipe)).
  { rewrite upsert_active_lookup. cbv zeta. cbn [andb].
    rewrite (bool_decide_eq_true_2 _ Hout). reflexivity. }
  split; [exact E|]. unfold RecipeBook.get_active_recipe. rewrite E.
  destruct (decide (Recipe.id recipe = "")); [reflexivity|].
  apply upsert_find_new.
Qed.

Lemma upsert_activates_witness :
  "bolt" ∈ map fst (Recipe.outputs rod_and_bolt)
  /\ RecipeBook.get_active_recipe
       (RecipeBook.upsert_recipe gear_book rod_and_bolt true) "bolt"
     = Some rod_and_bolt.
Proof.
  assert (H : "bolt" ∈ map fst (Recipe.outputs rod_and_bolt)) by (right; left).
  split; [exact H|].
  exact (proj2 (upsert_activates gear_book rod_and_bolt "bolt" H)).
Defined.

(** X12.  When [upsert_recipe] replaces a recipe, an output that the old
    version listed and the new version does not is no longer mapped to the
    id of the recipe, so the recipe is not the active recipe of that item;
    the items that neither version lists keep their mapping. *)
Theorem upsert_drops_stale (self : RecipeBook.t) (recipe old : Recipe.t)
    (make_active : bool) :
  RecipeBook.get_recipe self (Recipe.id recipe) = Some old ->
  let book := RecipeBook.upsert_recipe self recipe make_active in
  (forall out,
     out ∈ map fst (Recipe.outputs old) ->
     out ∉ map fst (Recipe.outputs recipe) ->
     RecipeBook.active_by_output book !! out <> Some (Recipe.id recipe)
     /\ forall r, RecipeBook.get_active_recipe book out = Some r ->
                  Recipe.id r <> Recipe.id recipe)
  /\ (forall k,
        k ∉ map fst (Recipe.outputs old) ->
        k ∉ map fst (Recipe.outputs recipe) ->
        RecipeBook.active_by_output book !! k
        = RecipeBook.active_by_output self !! k).
Proof.
  intros Hold. cbv zeta.
  assert (Hid : Recipe.id old = Recipe.id recipe).
  { unfold RecipeBook.get_recipe in Hold. apply find_some in Hold.
    destruct Hold as [_ H]. apply bool_decide_eq_true in H. exact H. }
  split.
  - intros out Ho Hn.
    assert (Hne : RecipeBook.active_by_output
                    (RecipeBook.upsert_recipe self recipe make_active) !! out
                  <> Some (Recipe.id recipe)).
    { rewrite upsert_active_lookup. cbv zeta. rewrite Hold.
      rewrite (bool_decide_eq_false_2 _ Hn), andb_false_r.
      rewrite drop_stale_lookup.
      rewrite (bool_decide_eq_true_2 _ Ho), (bool_decide_eq_false_2 _ Hn).
      cbn [andb negb]. rewrite andb_true_r.
      destruct (bool_decide _) eqn:E; [discriminate|].
      apply bool_decide_eq_false in E. rewrite Hid in E. exact E. }
    split; [exact Hne|]. intros r Hr Hrid.
    unfold RecipeBook.get_active_recipe in Hr.
    destruct (RecipeBook.active_by_output _ !! out) as [rid|]; [|discriminate].
    destruct (decide (rid = "")); [discriminate|].
    apply find_some in Hr. destruct Hr as [_ Hr].
    apply bool_decide_eq_true in Hr. apply Hne. congruence.
  - intros k Ho Hn. rewrite upsert_active_lookup. cbv zeta. rewrite Hold.
    rewrite (bool_decide_eq_false_2 _ Hn), andb_false_r.
    rewrite drop_stale_lookup. rewrite (bool_decide_eq_false_2 _ Ho).
    reflexivity.
Qed.

Lemma upsert_drops_stale_witness :
  RecipeBook.get_recipe (RecipeBook.upsert_recipe gear_book rod_and_bolt true)
    (Recipe.id bolt_only) = Some rod_and_bolt
  /\ "rod" ∈ map fst (Recipe.outputs rod_and_bolt)
  /\ ("rod" ∉ map fst (Recipe.outputs bolt_only))
  /\ RecipeBook.active_by_output
       (RecipeBook.upsert_recipe
          (RecipeBook.upsert_recipe gear_book rod_and_bolt true)
          bolt_only true) !! "rod" <> Some "rod".
Proof.
  assert (H1 : RecipeBook.get_recipe
                 (RecipeBook.upsert_recipe gear_book rod_and_bolt true)
                 (Recipe.id bolt_only) = Some rod_and_bolt) by reflexivity.
  assert (H2 : "rod" ∈ map fst (Recipe.outputs rod_and_bolt)) by left.
  assert (H3 : "rod" ∉ map fst (Recipe.outputs bolt_only)).
  { intros H. apply list_elem_of_singleton in H. discriminate. }
  split; [exact H1|]. split; [exact H2|]. split; [exact H3|].
  exact (proj1 (proj1 (upsert_drops_stale _ bolt_only rod_and_bolt true H1)
                  "rod" H2 H3)).
Defined.

Lemma candidate_inj (base : string) (i j : N) :
  RecipeBook.candidate base i = RecipeBook.candidate base j -> i = j.
Proof.
  unfold RecipeBook.candidate. intros H.
  apply (inj (String.app base)) in H. apply (inj (String.app "_")) in H.
  apply (inj pretty) in H. exact H.
Qed.

Lemma next_candidate_Ok (turns : nat) (base : string) (ex : gset string) :
  forall (idx : N) (c : string),
    RecipeBook.next_candidate turns base ex idx = Ok c ->
    (c ∉ ex) /\ exists j : N, c = RecipeBook.candidate base (idx + j).
Proof.
  induction turns as [|turns IH]; intros idx c H; [discriminate|].
  cbn [RecipeBook.next_candidate] in H.
  destruct (bool_decide (RecipeBook.candidate base idx ∉ ex)) eqn:E.
  - apply bool_decide_eq_true in E. injection H as <-. split; [exact E|].
    exists 0%N. rewrite N.add_0_r. reflexivity.
  - destruct (IH _ _ H) as (Hc & j & ->). split; [exact Hc|].
    exists (1 + j)%N. f_equal. lia.
Qed.

Lemma next_candidate_OutOfFuel (turns : nat) (base : string)
    (ex : gset string) :
  forall idx : N,
    RecipeBook.next_candidate turns base ex idx = OutOfFuel ->
    forall j : nat, (j < turns)%nat ->
      RecipeBook.candidate base (idx + N.of_nat j) ∈ ex.
Proof.
  induction turns as [|turns IH]; intros idx H j Hj; [lia|].
  cbn [RecipeBook.next_candidate] in H.
  destruct (bool_decide (RecipeBook.candidate base idx ∉ ex)) eqn:E;
    [discriminate|].
  apply bool_decide_eq_false in E. apply dec_stable in E.
  destruct j as [|j].
  - rewrite N.add_0_r. exact E.
  - replace (idx + N.of_nat (S j))%N with (idx + 1 + N.of_nat j)%N by lia.
    apply (IH _ H). lia.
Qed.

Lemma next_candidate_no_raise (turns : nat) (base : string)
    (ex : gset string) :
  forall (idx : N) (e : Exception),
    RecipeBook.next_candidate turns base ex idx <> Raise e.
Proof.
  induction turns as [|turns IH]; intros idx e; [discriminate|].
  cbn [RecipeBook.next_candidate].
  destruct (bool_decide _); [discriminate | apply IH].
Qed.

Lemma size_list_to_set_le (l : list string) :
  (size (list_to_set l : gset string) <= length l)%nat.
Proof.
  induction l as [|x l IH]; [rewrite list_to_set_nil, size_empty; lia|].
  rewrite list_to_set_cons, size_union_alt, size_singleton. cbn [length].
  assert (size (list_to_set l ∖ {[x]} : gset string)
          <= size (list_to_set l : gset string))%nat
    by (apply subseteq_size; intros y Hy; apply elem_of_difference in Hy;
        apply Hy).
  lia.
Qed.

(** As many candidates as there are turns cannot all be taken when the
    set of ids is smaller. *)
Lemma candidates_exhaust (turns : nat) (base : string) (ex : gset string)
    (idx : N) :
  (forall j : nat, (j < turns)%nat ->
     RecipeBook.candidate base (idx + N.of_nat j) ∈ ex) ->
  (turns <= size ex)%nat.
Proof.
  intros H.
  set (l := map (fun j : nat => RecipeBook.candidate base (idx + N.of_nat j))
                (seq 0 turns)).
  assert (Hnd : NoDup l).
  { unfold l. apply NoDup_fmap_2_strong; [|apply NoDup_seq].
    intros i j _ _ E. apply candidate_inj in E. lia. }
  assert (Hlen : length l = turns)
    by (unfold l; rewrite length_map, length_seq; reflexivity).
  rewrite <- Hlen, <- (size_list_to_set (C := gset string) l Hnd).
  apply subseteq_size. intros c Hc. apply elem_of_list_to_set in Hc.
  unfold l in Hc. apply list_elem_of_fmap in Hc.
  destruct Hc as (j & -> & Hj). apply elem_of_seq in Hj. apply H. lia.
Qed.

Lemma not_existing_no_recipe (self : RecipeBook.t) (rid : string) :
  rid ∉ RecipeBook.existing_ids self -> RecipeBook.get_recipe self rid = None.
Proof.
  intros H. unfold RecipeBook.get_recipe. apply find_no_match.
  intros r Hr. apply bool_decide_eq_false_2. intros E. apply H.
  unfold RecipeBook.existing_ids. apply elem_of_list_to_set.
  rewrite <- E. apply list_elem_of_fmap_2. exact Hr.
Qed.

(** X13.  [next_recipe_id] ends and returns a non-empty id that no recipe
    of the book has: the stripped item name (or "recipe" when that is
    empty) if it is free, else that name followed by "_" and a number from
    2 on. *)
Theorem next_recipe_id_fresh (strip : string -> string)
    (self : RecipeBook.t) (output_item : string) :
  let base := if decide (strip output_item = "") then "recipe"
              else strip output_item in
  exists rid : string,
    RecipeBook.next_recipe_id strip self output_item = Ok rid
    /\ RecipeBook.get_recipe self rid = None
    /\ rid <> ""
    /\ (RecipeBook.get_recipe self base = None -> rid = base)
    /\ (rid = base
        \/ exists j : N, rid = base +:+ "_" +:+ pretty (2 + j)%N).
Proof.
  cbv zeta. unfold RecipeBook.next_recipe_id.
  set (base := if decide (strip output_item = "") then "recipe"
               else strip output_item).
  assert (Hbase : base <> "").
  { unfold base. destruct (decide (strip output_item = "")); [discriminate|].
    assumption. }
  destruct (bool_decide (base ∉ RecipeBook.existing_ids self)) eqn:E.
  - apply bool_decide_eq_true in E. exists base.
    split; [reflexivity|]. split; [apply not_existing_no_recipe, E|].
    split; [exact Hbase|]. split; [reflexivity | left; reflexivity].
  - apply bool_decide_eq_false in E. apply dec_stable in E.
    destruct (RecipeBook.next_candidate _ base _ 2) as [c|e|] eqn:Eloop.
    + destruct (next_candidate_Ok _ _ _ _ _ Eloop) as (Hc & j & ->).
      exists (RecipeBook.candidate base (2 + j)).
      split; [reflexivity|]. split; [apply not_existing_no_recipe, Hc|].
      split; [|split].
      * unfold RecipeBook.candidate. destruct base; [contradiction|discriminate].
      * intros Hfree. exfalso.
        unfold RecipeBook.existing_ids in E. apply elem_of_list_to_set in E.
        apply list_elem_of_fmap in E. destruct E as (r & Er & Hr).
        unfold RecipeBook.get_recipe in Hfree.
        apply list_elem_of_In in Hr. apply (find_none _ _ Hfree r) in Hr.
        apply bool_decide_eq_false in Hr. congruence.
      * right. exists j. reflexivity.
    + exfalso. exact (next_candidate_no_raise _ _ _ _ _ Eloop).
    + exfalso.
      pose proof (candidates_exhaust _ _ _ _
                    (next_candidate_OutOfFuel _ _ _ _ Eloop)) as Hsz.
      pose proof (size_list_to_set_le (map Recipe.id (RecipeBook.recipes self)))
        as Hle.
      rewrite length_map in Hle. unfold RecipeBook.existing_ids in Hsz. lia.
Qed.

(** The id proposed for a second rod recipe of the gear catalog. *)
Example next_id_of_rod :
  RecipeBook.next_recipe_id (fun s => s) gear_book "rod" = Ok "rod_2"
  /\ RecipeBook.next_recipe_id (fun s => s) gear_book "bolt" = Ok "bolt"
  /\ RecipeBook.next_recipe_id (fun s => s) gear_book "" = Ok "recipe".
Proof. vm_compute. repeat split; reflexivity. Qed.

Lemma next_recipe_id_fresh_witness :
  RecipeBook.get_recipe gear_book "bolt" = None
  /\ exists rid : string,
       RecipeBook.next_recipe_id (fun s => s) gear_book "bolt" = Ok rid
       /\ rid = "bolt".
Proof.
  assert (H : RecipeBook.get_recipe gear_book "bolt" = None) by reflexivity.
  split; [exact H|].
  destruct (next_recipe_id_fresh (fun s => s) gear_book "bolt")
    as (rid & H1 & _ & _ & H2 & _).
  exists rid. split; [exact H1 | exact (H2 H)].
Defined.

(* ===================================================================== *)
(** ** The recipe book of [nomi_calc.py] *)
(* ===================================================================== *)

Lemma old_activate_lookup (r : NomiCalc.Recipe.t) (abo : gmap string string)
    (k : string) :
  NomiCalc.RecipeBook.activate r abo !! k
  = if bool_decide (k ∈ map fst (NomiCalc.Recipe.outputs r))
    then Some (NomiCalc.Recipe.id r) else abo !! k.
Proof.
  unfold NomiCalc.RecipeBook.activate. revert abo.
  induction (map fst (NomiCalc.Recipe.outputs r)) as [|out outs IH];
    intros abo.
  - reflexivity.
  - cbn [fold_left]. rewrite IH.
    destruct (decide (k ∈ outs)) as [Hin|Hin].
    + rewrite !bool_decide_eq_true_2; [reflexivity | right; exact Hin | exact Hin].
    + rewrite (bool_decide_eq_false_2 _ Hin).
      destruct (decide (k = out)) as [->|Hne].
      * rewrite lookup_insert_eq, bool_decide_eq_true_2; [reflexivity | left].
      * rewrite lookup_insert_ne by congruence.
        rewrite bool_decide_eq_false_2; [reflexivity|].
        intros H. apply elem_of_cons in H. destruct H; contradiction.
Qed.

(** X14.  [add] refuses a recipe whose id is in the book, with the error
    naming the id.  Otherwise the recipe is stored under its id, the other
    recipes stay, the book still keeps every recipe under its own id, and
    with [make_active] the recipe is the active one of each of its outputs
    (unless its id is the empty string, which is never active). *)
Theorem old_book_add (self : NomiCalc.RecipeBook.t) (r : NomiCalc.Recipe.t)
    (make_active : bool) :
  (is_Some (NomiCalc.RecipeBook.recipes self !! NomiCalc.Recipe.id r) ->
   NomiCalc.RecipeBook.add self r make_active
   = NomiCalc.RecipeBook.RaiseValueError
       ("Recipe id already exists: " +:+ NomiCalc.Recipe.id r))
  /\ (NomiCalc.RecipeBook.recipes self !! NomiCalc.Recipe.id r = None ->
      exists rb,
        NomiCalc.RecipeBook.add self r make_active
        = NomiCalc.RecipeBook.Updated rb
        /\ NomiCalc.RecipeBook.recipes rb !! NomiCalc.Recipe.id r = Some r
        /\ (forall k, k <> NomiCalc.Recipe.id r ->
              NomiCalc.RecipeBook.recipes rb !! k
              = NomiCalc.RecipeBook.recipes self !! k)
        /\ (keyed_by_id self -> keyed_by_id rb)
        /\ (make_active = true ->
            forall out, out ∈ map fst (NomiCalc.Recipe.outputs r) ->
              NomiCalc.RecipeBook.get_active_for rb out
              = if decide (NomiCalc.Recipe.id r = "") then None else Some r)).
Proof.
  unfold NomiCalc.RecipeBook.add. split.
  - intros H. rewrite (bool_decide_eq_true_2 _ H). reflexivity.
  - intros H.
    rewrite bool_decide_eq_false_2 by (rewrite H; apply is_Some_None).
    eexists. split; [reflexivity|].
    cbn [NomiCalc.RecipeBook.recipes NomiCalc.RecipeBook.active_by_output].
    split; [apply lookup_insert_eq|]. split; [|split].
    + intros k Hk. apply lookup_insert_ne. congruence.
    + intros Hkey k r' Hr'. cbn [NomiCalc.RecipeBook.recipes] in Hr'.
      destruct (decide (k = NomiCalc.Recipe.id r)) as [->|Hne].
      * rewrite lookup_insert_eq in Hr'. congruence.
      * rewrite lookup_insert_ne in Hr' by congruence. exact (Hkey k r' Hr').
    + intros -> out Hout. unfold NomiCalc.RecipeBook.get_active_for.
      cbn [NomiCalc.RecipeBook.recipes NomiCalc.RecipeBook.active_by_output].
      rewrite old_activate_lookup, (bool_decide_eq_true_2 _ Hout).
      destruct (decide (NomiCalc.Recipe.id r = "")); [reflexivity|].
      apply lookup_insert_eq.
Qed.

Lemma old_book_add_witness :
  NomiCalc.RecipeBook.recipes (NomiCalc.Planner.rb old_gear_planner)
    !! NomiCalc.Recipe.id (old_recipe "bolt" "lathe" [("rod", 1%Q)]) = None
  /\ exists rb,
       NomiCalc.RecipeBook.add (NomiCalc.Planner.rb old_gear_planner)
         (old_recipe "bolt" "lathe" [("rod", 1%Q)]) true
       = NomiCalc.RecipeBook.Updated rb
       /\ NomiCalc.RecipeBook.recipes rb !! "bolt"
          = Some (old_recipe "bolt" "lathe" [("rod", 1%Q)]).
Proof.
  assert (H : NomiCalc.RecipeBook.recipes (NomiCalc.Planner.rb old_gear_planner)
                !! NomiCalc.Recipe.id (old_recipe "bolt" "lathe" [("rod", 1%Q)])
              = None) by (vm_compute; reflexivity).
  split; [exact H|].
  destruct (proj2 (old_book_add (NomiCalc.Planner.rb old_gear_planner)
                     (old_recipe "bolt" "lathe" [("rod", 1%Q)]) true) H)
    as (rb & H1 & H2 & _).
  exists rb. split; [exact H1 | exact H2].
Defined.

(** X15.  [set_active] raises the key error for an id that is not in the
    book and leaves the book as it is; for a known id it makes the recipe
    of that id the active recipe of the item (unless the id is the empty
    string) and changes the active recipe of no other item. *)
Theorem old_book_set_active (self : NomiCalc.RecipeBook.t)
    (output_item recipe_id : string) :
  (NomiCalc.RecipeBook.recipes self !! recipe_id = None ->
   NomiCalc.RecipeBook.set_active self output_item recipe_id
   = NomiCalc.RecipeBook.RaiseKeyError ("Unknown recipe id: " +:+ recipe_id))
  /\ (forall r, NomiCalc.RecipeBook.recipes self !! recipe_id = Some r ->
      exists rb,
        NomiCalc.RecipeBook.set_active self output_item recipe_id
        = NomiCalc.RecipeBook.Updated rb
        /\ NomiCalc.RecipeBook.recipes rb = NomiCalc.RecipeBook.recipes self
        /\ NomiCalc.RecipeBook.get_active_for rb output_item
           = (if decide (recipe_id = "") then None else Some r)
        /\ forall item, item <> output_item ->
             NomiCalc.RecipeBook.get_active_for rb item
             = NomiCalc.RecipeBook.get_active_for self item).
Proof.
  unfold NomiCalc.RecipeBook.set_active. split.
  - intros H.
    rewrite bool_decide_eq_false_2 by (rewrite H; apply is_Some_None).
    reflexivity.
  - intros r H. rewrite bool_decide_eq_true_2 by (rewrite H; eauto).
    eexists. split; [reflexivity|]. split; [reflexivity|].
    unfold NomiCalc.RecipeBook.get_active_for.
    cbn [NomiCalc.RecipeBook.recipes NomiCalc.RecipeBook.active_by_output].
    split.
    + rewrite lookup_insert_eq.
      destruct (decide (recipe_id = "")); [reflexivity | exact H].
    + intros item Hne. rewrite lookup_insert_ne by congruence. reflexivity.
Qed.

Lemma old_book_set_active_witness :
  NomiCalc.RecipeBook.recipes (NomiCalc.Planner.rb old_gear_planner) !! "bolt"
  = None
  /\ NomiCalc.RecipeBook.set_active (NomiCalc.Planner.rb old_gear_planner)
       "rod" "bolt"
     = NomiCalc.RecipeBook.RaiseKeyError "Unknown recipe id: bolt".
Proof.
  assert (H : NomiCalc.RecipeBook.recipes (NomiCalc.Planner.rb old_gear_planner)
                !! "bolt" = None) by (vm_compute; reflexivity).
  split; [exact H|].
  exact (proj1 (old_book_set_active (NomiCalc.Planner.rb old_gear_planner)
                  "rod" "bolt") H).
Defined.

(* ===================================================================== *)
(** ** More on [nomi_calc.py] *)
(* ===================================================================== *)

(** [apply] within the capacity: the correction loop runs no turn. *)
Lemma old_apply_lemma (tier : Tier) (base_ticks : Z) (p : Q) :
  (p <= inject_Z (NomiCalc.VOLTAGE_BY_TIER tier))%Q ->
  exists r,
    NomiCalc.OverclockingRules.apply (NomiCalc.OverclockingRules.init tier)
      base_ticks (Some p) = Ok r
    /\ NomiCalc.overclocks r
       = (if Qgtb p 0
          then floor_log4 (inject_Z (NomiCalc.VOLTAGE_BY_TIER tier) / p)
          else 0)
    /\ NomiCalc.eut r
       = (p * inject_Z
                (4 ^ (if Qgtb p 0
                      then floor_log4 (inject_Z (NomiCalc.VOLTAGE_BY_TIER tier) / p)
                      else 0)))%Q
    /\ NomiCalc.ticks r
       = NomiCalc.OverclockingRules.round_ticks p
           (inject_Z base_ticks
            / (if Qle_bool p 16 then 2 else 14 # 5)
              ^ (if Qgtb p 0
                 then floor_log4 (inject_Z (NomiCalc.VOLTAGE_BY_TIER tier) / p)
                 else 0))
    /\ NomiCalc.seconds r = (inject_Z (NomiCalc.ticks r) * (1 # 20))%Q.
Proof.
  intros Hcap. unfold NomiCalc.OverclockingRules.apply.
  cbn [NomiCalc.OverclockingRules.init
       NomiCalc.OverclockingRules.machine_voltage].
  assert (E1 : Qgtb p (inject_Z (NomiCalc.VOLTAGE_BY_TIER tier)) = false)
    by (apply Qgtb_false, Hcap).
  rewrite E1.
  set (n := if Qgtb p 0
            then floor_log4 (inject_Z (NomiCalc.VOLTAGE_BY_TIER tier) / p)
            else 0).
  assert (Hn : 0 <= n).
  { unfold n. destruct (Qgtb p 0); [apply floor_log4_nonneg | lia]. }
  rewrite (Z.max_r 0 n Hn).
  rewrite step_back_noop by apply round_ticks_ge_1.
  rewrite (Qpower_if_pos _ _ Hn).
  eexists. split; [reflexivity|]. repeat split.
Qed.



(** One tick at 8 EU/t on UEV: ten overclocks and 8 * 4^10 EU/t for a
    duration that stays at one tick. *)
Example overclocked_past_one_tick :
  match NomiCalc.OverclockingRules.apply (NomiCalc.OverclockingRules.init UEV)
          1 (Some 8%Q) with
  | Ok r => NomiCalc.overclocks r = 10 /\ NomiCalc.ticks r = 1
            /\ (NomiCalc.eut r == 8388608)%Q
  | Raise _ | OutOfFuel => False
  end.
Proof. vm_compute. repeat split; reflexivity. Qed.

Lemma py_round_le_ceiling (x : Q) : py_round x <= Qceiling x.
Proof.
  unfold py_round.
  assert (Hfc : Qfloor x <= Qceiling x)
    by (rewrite Zle_Qle; apply Qle_floor_ceiling).
  assert (Hup : (inject_Z (Qfloor x) < x)%Q -> Qfloor x + 1 <= Qceiling x).
  { intros H. assert (H' : (inject_Z (Qfloor x) < inject_Z (Qceiling x))%Q)
      by (eapply Qlt_le_trans; [exact H | apply Qle_ceiling]).
    rewrite <- Zlt_Qlt in H'. lia. }
  assert (Hpos : forall d : Q, (0 < d)%Q -> (x - inject_Z (Qfloor x) == d
                 \/ d < x - inject_Z (Qfloor x))%Q ->
                 (inject_Z (Qfloor x) < x)%Q).
  { intros d Hd H. apply (Qplus_lt_l _ _ (- inject_Z (Qfloor x))).
    rewrite Qplus_opp_r. destruct H as [H|H].
    - unfold Qminus in H. rewrite H. exact Hd.
    - eapply Qlt_trans; [exact Hd | exact H]. }
  destruct (Qcompare (x - inject_Z (Qfloor x)) (1 # 2)) eqn:E.
  - apply Qeq_alt in E.
    assert (Hlt : (inject_Z (Qfloor x) < x)%Q)
      by (apply (Hpos (1 # 2)%Q); [reflexivity | left; exact E]).
    destruct (Z.even (Qfloor x)); [exact Hfc | exact (Hup Hlt)].
  - exact Hfc.
  - apply Qgt_alt in E. apply Hup.
    apply (Hpos (1 # 2)%Q); [reflexivity | right; exact E].
Qed.

(** X17.  For the same recipe and tier, with a base power that fits the
    tier, [compute_overclock] of [oc.py] and [apply] of [nomi_calc.py]
    (fed the base duration rounded to the nearest tick, as [_solve_node]
    does) agree on the overclock count and on the power, and the duration
    of [oc.py] is never the shorter one. *)
Theorem new_calculator_not_faster (tier : Tier) (time p : Q) :
  (0 < p)%Q -> (p <= inject_Z (Oc.VOLTAGE_BY_TIER tier))%Q ->
  let new := Oc.compute_overclock time p tier in
  exists old,
    NomiCalc.OverclockingRules.apply (NomiCalc.OverclockingRules.init tier)
      (Z.max 1 (py_round (time / NomiCalc.TICK_S))) (Some p) = Ok old
    /\ NomiCalc.overclocks old = Oc.overclocks new
    /\ NomiCalc.eut old = Oc.eut new
    /\ NomiCalc.ticks old <= Oc.ticks new
    /\ (NomiCalc.seconds old <= Oc.seconds new)%Q.
Proof.
  intros Hp Hcap. cbv zeta.
  assert (Hcap' : (p <= inject_Z (NomiCalc.VOLTAGE_BY_TIER tier))%Q)
    by (rewrite same_voltage_table; exact Hcap).
  destruct (old_apply_lemma tier (Z.max 1 (py_round (time / NomiCalc.TICK_S)))
              p Hcap') as (old & Hold & Hn & Heut & Hticks & Hsec).
  exists old. split; [exact Hold|].
  rewrite (compute_overclock_in_range time p tier Hp Hcap).
  cbn [Oc.overclocks Oc.eut Oc.ticks Oc.seconds].
  assert (E2 : Qgtb p 0 = true) by (apply Qgtb_true, Hp).
  rewrite E2, same_voltage_table in Hn, Heut, Hticks.
  set (n := floor_log4 (inject_Z (Oc.VOLTAGE_BY_TIER tier) / p)) in *.
  assert (Hn0 : 0 <= n) by apply floor_log4_nonneg.
  rewrite (Qpower_if_pos _ _ Hn0).
  set (f := (if Qle_bool p 16 then 2 else 14 # 5)%Q) in *.
  assert (Hf : (0 < f ^ n)%Q).
  { eapply Qlt_le_trans; [|apply Qpower_1_le; [apply factor_ge_1|exact Hn0]].
    reflexivity. }
  assert (Hle : NomiCalc.ticks old
                <= Z.max 1 (Qceiling (inject_Z (Z.max 1 (Qceiling (time / Oc.TICK_S)))
                                      / f ^ n))).
  { rewrite Hticks. unfold NomiCalc.OverclockingRules.round_ticks.
    assert (Hbase : (inject_Z (Z.max 1 (py_round (time / NomiCalc.TICK_S))) / f ^ n
                     <= inject_Z (Z.max 1 (Qceiling (time / Oc.TICK_S))) / f ^ n)%Q).
    { unfold Qdiv. apply Qmult_le_compat_r;
        [|apply Qinv_le_0_compat, Qlt_le_weak, Hf].
      rewrite <- Zle_Qle. apply Z.max_le_compat_l.
      apply py_round_le_ceiling. }
    destruct (Qle_bool p 16); apply Z.max_le_compat_l.
    - etransitivity;
        [rewrite Zle_Qle; apply Qle_floor_ceiling
        | apply Qceiling_resp_le, Hbase].
    - apply Qceiling_resp_le, Hbase. }
  split; [exact Hn|]. split; [exact Heut|]. split; [exact Hle|].
  rewrite Hsec. apply Qmult_le_compat_r; [|discriminate].
  rewrite <- Zle_Qle. exact Hle.
Qed.

Lemma new_calculator_not_faster_witness :
  (0 < 8)%Q /\ (8 <= inject_Z (Oc.VOLTAGE_BY_TIER LV))%Q
  /\ exists old,
       NomiCalc.OverclockingRules.apply (NomiCalc.OverclockingRules.init LV)
         (Z.max 1 (py_round ((1 # 4) / NomiCalc.TICK_S))) (Some 8%Q) = Ok old
       /\ NomiCalc.ticks old <= Oc.ticks (Oc.compute_overclock (1 # 4) 8 LV).
Proof.
  assert (H1 : (0 < 8)%Q) by reflexivity.
  assert (H2 : (8 <= inject_Z (Oc.VOLTAGE_BY_TIER LV))%Q) by discriminate.
  split; [exact H1|]. split; [exact H2|].
  destruct (new_calculator_not_faster LV (1 # 4) 8 H1 H2)
    as (old & Ho & _ & _ & Ht & _).
  exists old. split; [exact Ho | exact Ht].
Defined.

(* --------------------------------------------------------------------- *)
(** *** The shared set [visited] *)

#[local] Set Warnings "-clear-no-such-hyp".

Lemma old_nodes_unfold (n : NomiCalc.PlanNode.t) :
  NomiCalc.PlanNode.nodes n
  = n :: flat_map NomiCalc.PlanNode.nodes (NomiCalc.PlanNode.children n).
Proof. destruct n; reflexivity. Qed.

Lemma raw_items_unfold (self : NomiCalc.Planner.t) (n : NomiCalc.PlanNode.t) :
  raw_items self n
  = (if decide (~ is_Some (NomiCalc.RecipeBook.get_active_for
                             (NomiCalc.Planner.rb self)
                             (NomiCalc.PlanNode.item n)))
     then [NomiCalc.PlanNode.item n] else [])
    ++ flat_map (raw_items self) (NomiCalc.PlanNode.children n).
Proof.
  unfold raw_items at 1. rewrite old_nodes_unfold. cbn [map].
  rewrite filter_cons.
  assert (E : forall cs,
            filter (fun it => ~ is_Some (NomiCalc.RecipeBook.get_active_for
                                           (NomiCalc.Planner.rb self) it))
              (map NomiCalc.PlanNode.item
                 (flat_map NomiCalc.PlanNode.nodes cs))
            = flat_map (raw_items self) cs).
  { induction cs as [|c cs IH]; [reflexivity|].
    cbn [flat_map]. rewrite map_app, filter_app, IH. reflexivity. }
  rewrite E. destruct (decide _); reflexivity.
Qed.

(** One step of [_solve_node] that returns a node. *)
Lemma old_solve_Ok_inv (fuel : nat) (self : NomiCalc.Planner.t)
    (item : string) (rate : Q) (tier : Tier) (visited visited' : gset string)
    (nd : NomiCalc.PlanNode.t) :
  NomiCalc.Planner._solve_node (S fuel) self item rate tier visited
  = Ok (nd, visited') ->
  (item ∉ visited)
  /\ NomiCalc.PlanNode.item nd = item
  /\ match NomiCalc.RecipeBook.get_active_for (NomiCalc.Planner.rb self) item
     with
     | None =>
         NomiCalc.PlanNode.children nd = []
         /\ visited' = {[item]} ∪ visited
     | Some r =>
         exists irs after,
           NomiCalc.Planner.solve_children
             (fun in_item in_rate visited =>
                NomiCalc.Planner._solve_node fuel self in_item in_rate tier
                  visited)
             irs ({[item]} ∪ visited)
           = Ok (NomiCalc.PlanNode.children nd, after)
           /\ map fst irs = map fst (NomiCalc.Recipe.inputs r)
           /\ item ∈ after
           /\ visited' = after ∖ {[item]}
     end.
Proof.
  intros H. cbn [NomiCalc.Planner._solve_node] in H.
  destruct (bool_decide (item ∈ visited)) eqn:Ein; [discriminate|].
  apply bool_decide_eq_false in Ein. split; [exact Ein|].
  destruct (NomiCalc.RecipeBook.get_active_for _ item) as [r|].
  - destruct (NomiCalc.Planner._choose_output_amount r item) as [out| |];
      cbn [bind] in H; try discriminate.
    destruct (match NomiCalc.Recipe.base_eut r with
              | Some _ => _
              | None => _
              end) as [[[eff_time eff_eut] ocs]| |];
      cbn [bind] in H; try discriminate.
    destruct (Qeq_bool eff_time 0); [discriminate|].
    match type of H with
    | bind (NomiCalc.Planner.solve_children ?f ?irs ?v) _ = _ =>
        destruct (NomiCalc.Planner.solve_children f irs v)
          as [[cs after]| |] eqn:Ech
    end; cbn [bind] in H; try discriminate.
    destruct (bool_decide (item ∈ after)) eqn:Eafter; [|discriminate].
    apply bool_decide_eq_true in Eafter.
    injection H as <- <-. cbn [NomiCalc.PlanNode.item NomiCalc.PlanNode.children].
    split; [reflexivity|]. eexists _, after.
    split; [exact Ech|]. split; [|split; [exact Eafter | reflexivity]].
    rewrite map_map. apply map_ext. intros [k v]. reflexivity.
  - injection H as <- <-. repeat split.
Qed.

(** What a returned call of [_solve_node] does to the shared set: it adds
    the raw inputs of the tree it returns, which are new to the set and
    pairwise distinct, and nothing else. *)
Lemma old_solve_visited (self : NomiCalc.Planner.t) (tier : Tier) :
  forall (fuel : nat) (item : string) (rate : Q)
         (visited visited' : gset string) (nd : NomiCalc.PlanNode.t),
    NomiCalc.Planner._solve_node fuel self item rate tier visited
    = Ok (nd, visited') ->
    visited' = visited ∪ list_to_set (raw_items self nd)
    /\ NoDup (raw_items self nd)
    /\ forall x, x ∈ raw_items self nd -> x ∉ visited.
Proof.
  induction fuel as [|fuel IH]; intros item rate visited visited' nd H;
    [discriminate|].
  apply old_solve_Ok_inv in H. destruct H as (Hin & Hitem & H).
  rewrite raw_items_unfold, Hitem.
  destruct (NomiCalc.RecipeBook.get_active_for _ item) as [r|] eqn:Er.
  - destruct H as (irs & after & Hch & _ & Hafter & ->).
    rewrite decide_False by (intros Hn; apply Hn; eauto). cbn [app].
    assert (Hkids : forall irs v cs v',
              NomiCalc.Planner.solve_children
                (fun in_item in_rate visited =>
                   NomiCalc.Planner._solve_node fuel self in_item in_rate tier
                     visited) irs v = Ok (cs, v') ->
              v' = v ∪ list_to_set (flat_map (raw_items self) cs)
              /\ NoDup (flat_map (raw_items self) cs)
              /\ forall x, x ∈ flat_map (raw_items self) cs -> x ∉ v).
    { clear - IH. induction irs as [|[it rt] irs IHl]; intros v cs v' H;
        cbn [NomiCalc.Planner.solve_children] in H.
      - injection H as <- <-. cbn [flat_map]. split; [set_solver|].
        split; [constructor | intros x Hx; inversion Hx].
      - destruct (NomiCalc.Planner._solve_node fuel self it rt tier v)
          as [[c v1]| |] eqn:Ec; cbn [bind] in H; try discriminate.
        destruct (NomiCalc.Planner.solve_children _ irs v1)
          as [[cs' v2]| |] eqn:Ecs; cbn [bind] in H; try discriminate.
        injection H as <- <-.
        destruct (IH _ _ _ _ _ Ec) as (E1 & N1 & D1).
        destruct (IHl _ _ _ Ecs) as (E2 & N2 & D2).
        cbn [flat_map]. split; [|split].
        + rewrite E2, E1, list_to_set_app_L. set_solver.
        + apply NoDup_app. split; [exact N1|]. split; [|exact N2].
          intros x Hx Hx'. apply (D2 x Hx'). rewrite E1.
          apply elem_of_union. right. apply elem_of_list_to_set. exact Hx.
        + intros x Hx. apply elem_of_app in Hx. destruct Hx as [Hx|Hx];
            [exact (D1 x Hx)|].
          intros Hv. apply (D2 x Hx). rewrite E1. apply elem_of_union.
          left. exact Hv. }
    destruct (Hkids _ _ _ _ Hch) as (E & N & D).
    split; [|split; [exact N|]].
    + rewrite E.
      assert (Hnot : item ∉ (list_to_set
                (flat_map (raw_items self) (NomiCalc.PlanNode.children nd))
                : gset string)).
      { intros Hx. apply elem_of_list_to_set in Hx. apply (D item Hx).
        apply elem_of_union. left. apply elem_of_singleton. reflexivity. }
      set_solver.
    + intros x Hx Hv. apply (D x Hx). apply elem_of_union. right. exact Hv.
  - destruct H as [Hcs ->]. rewrite Hcs.
    rewrite decide_True by (intros [? Hs]; discriminate).
    cbn [flat_map app]. split; [set_solver|].
    split; [apply NoDup_singleton|].
    intros x Hx. apply list_elem_of_singleton in Hx. subst x. exact Hin.
Qed.

(** X18.  In a tree that [_solve_node] returns from the empty set, no raw
    input occurs twice, and the set left behind holds exactly the raw
    inputs of the tree: a plan that needs the same raw input at two
    places is never returned. *)
Theorem old_solver_raw_inputs_once (self : NomiCalc.Planner.t)
    (fuel : nat) (item : string) (rate : Q) (tier : Tier)
    (nd : NomiCalc.PlanNode.t) (visited' : gset string) :
  NomiCalc.Planner._solve_node fuel self item rate tier ∅ = Ok (nd, visited') ->
  NoDup (raw_items self nd) /\ visited' = list_to_set (raw_items self nd).
Proof.
  intros H. destruct (old_solve_visited self tier _ _ _ _ _ _ H) as (E & N & _).
  split; [exact N|]. rewrite E. set_solver.
Qed.

Lemma old_solver_raw_inputs_once_witness :
  NomiCalc.Planner._solve_node 3 old_gear_planner "plate" 1 LV ∅
  = Ok (old_plate_tree, {["ore"]})
  /\ NoDup (raw_items old_gear_planner old_plate_tree)
  /\ raw_items old_gear_planner old_plate_tree = ["ore"].
Proof.
  assert (H : NomiCalc.Planner._solve_node 3 old_gear_planner "plate" 1 LV ∅
              = Ok (old_plate_tree, {["ore"]})) by (vm_compute; reflexivity).
  split; [exact H|]. split; [|vm_compute; reflexivity].
  exact (proj1 (old_solver_raw_inputs_once old_gear_planner 3 "plate" 1 LV
                  old_plate_tree {["ore"]} H)).
Defined.

(* --------------------------------------------------------------------- *)
(** *** Nodes of [_solve_node] *)




